(** * The tensor-to-video endpoint of the robot data visualizer

    A shallow embedding of [src/app/api/video/route.ts]: the tensor source
    resolver ([fetchTensorData], [generateMockTensorData]), the
    frame-to-video encoder ([convertTensorToVideo]) and the request handler
    ([POST]), with the properties the design document states about them. *)

From Stdlib Require Import ZArith NArith QArith Qround Lia String Ascii.
From stdpp Require Import base option list gmap.

Close Scope Q_scope.
Local Open Scope nat_scope.

(** ** JavaScript strings

    A JavaScript string is a sequence of UTF-16 code units.  Every string the
    endpoint builds is made of ASCII literals, decimal digits and the results
    of [String.fromCharCode]. *)

Abbreviation jsstring := (list N).

(** A literal of the source, as code units. *)
Definition lit (s : string) : jsstring :=
  map N_of_ascii (list_ascii_of_string s).

(** The line feed of the template literal's [\n]. *)
Definition LF : jsstring := [10%N].

(** [a < b] on strings: code-unit-wise lexicographic order, a proper prefix
    first. *)
Fixpoint jsstring_ltb (a b : jsstring) : bool :=
  match a, b with
  | [], [] => false
  | [], _ :: _ => true
  | _ :: _, [] => false
  | x :: a', y :: b' =>
      if (x <? y)%N then true
      else if (x =? y)%N then jsstring_ltb a' b' else false
  end.

(** [s.includes(pat)]. *)
Fixpoint isPrefixOf (pat s : jsstring) : bool :=
  match pat, s with
  | [], _ => true
  | _ :: _, [] => false
  | x :: pat', y :: s' => (x =? y)%N && isPrefixOf pat' s'
  end.

Fixpoint includes (s pat : jsstring) : bool :=
  isPrefixOf pat s ||
  match s with
  | [] => false
  | _ :: s' => includes s' pat
  end.

(** [n.toString()] for a non-negative integer: its decimal digits, most
    significant first, no leading zero.  A number has no more decimal digits
    than binary ones, which bounds the loop. *)
Fixpoint digits_fuel (fuel : nat) (n : N) (acc : jsstring) : jsstring :=
  match fuel with
  | O => acc
  | S fuel' =>
      let acc' := (48 + n mod 10)%N :: acc in
      if (n / 10 =? 0)%N then acc' else digits_fuel fuel' (n / 10)%N acc'
  end.

Definition toString (n : N) : jsstring :=
  digits_fuel (S (N.to_nat (N.log2 n))) n [].

(** [s.padStart(targetLength, fillString)]: the fill string is repeated and
    cut to the missing length; a string already long enough is returned as it
    is. *)
Definition padStart (targetLength : nat) (fillString s : jsstring) : jsstring :=
  let missing := targetLength - length s in
  take missing (mjoin (replicate missing fillString)) ++ s.

(** [path.join(a, b)] for a normalised directory [a] that does not end in a
    separator (what [process.cwd()] returns, the root directory apart) and a
    plain file name [b]. *)
Definition join (a b : jsstring) : jsstring := a ++ lit "/" ++ b.

(** ** JavaScript numbers

    The finite doubles are rationals; [Math.floor], [Math.min], [Math.max]
    and the comparisons are exact on them, so they are computed on [Q].  The
    operations that round (the arithmetic and trigonometry of the mock
    generator) are taken as parameters where they are used. *)

Inductive jsnum : Type :=
  | Fin (q : Q)
  | PInf
  | NInf
  | NaN.

(** What an array read gives: a number, or [undefined] for a hole or an
    index beyond the bounds. *)
Inductive jsval : Type :=
  | JUndefined
  | JNum (x : jsnum).

Definition num (z : Z) : jsnum := Fin (inject_Z z).

(** [ToBoolean]: [0], [NaN] and [undefined] are falsy. *)
Definition truthy (v : jsval) : bool :=
  match v with
  | JUndefined => false
  | JNum (Fin q) => negb (Qeq_bool q 0)
  | JNum NaN => false
  | JNum _ => true
  end.

(** [v || 0] where the result is used as a number. *)
Definition or_zero (v : jsval) : jsnum :=
  if truthy v then match v with JNum x => x | JUndefined => num 0 end
  else num 0.

Definition Math_floor (x : jsnum) : jsnum :=
  match x with
  | Fin q => num (Qfloor q)
  | other => other
  end.

Definition Math_min (a b : jsnum) : jsnum :=
  match a, b with
  | NaN, _ | _, NaN => NaN
  | NInf, _ | _, NInf => NInf
  | PInf, y => y
  | x, PInf => x
  | Fin p, Fin q => if Qle_bool p q then Fin p else Fin q
  end.

Definition Math_max (a b : jsnum) : jsnum :=
  match a, b with
  | NaN, _ | _, NaN => NaN
  | PInf, _ | _, PInf => PInf
  | NInf, y => y
  | x, NInf => x
  | Fin p, Fin q => if Qle_bool p q then Fin q else Fin p
  end.

(** [ToUint16], the conversion [String.fromCharCode] applies to each
    argument: truncate, then reduce modulo 2^16; not-a-number and the
    infinities give 0. *)
Definition ToUint16 (x : jsnum) : N :=
  match x with
  | Fin q => Z.to_N (Z.quot (Qnum q) (Zpos (Qden q)) mod 65536)
  | _ => 0%N
  end.

Definition fromCharCode (codes : list jsnum) : jsstring := map ToUint16 codes.

(** [arr[i]]. *)
Definition index (arr : list jsval) (i : nat) : jsval :=
  default JUndefined (arr !! i).

(** ** The payload *)

Record Frame : Type := mkFrame {
  frame_index : N;
  timestamp : jsstring;
  tensor_data : list jsval;
  frame_width : N;
  frame_height : N;
  frame_channels : N
}.

Record VideoTensorData : Type := mkVideoTensorData {
  camera_name : jsstring;
  frames : list Frame;
  width : N;
  height : N;
  channels : N
}.

(** ** Packing a frame *)

(** [Math.max(0, Math.min(255, Math.floor(v || 0)))]. *)
Definition channelSample (v : jsval) : jsnum :=
  Math_max (num 0) (Math_min (num 255) (Math_floor (or_zero v))).

(** The pixel loop [for (let i = 0; i < tensor_data.length; i += channels)].
    It runs at most [tensor_data.length] times when [channels] is positive.
    When [channels] is 0 and there is data the index never advances and the
    loop has no result: [None] (a runtime lets the string grow until its
    memory or its string length is exhausted). *)
Fixpoint pixelLoop (fuel : nat) (channels : nat) (data : list jsval)
    (i : nat) (ppmContent : jsstring) : option jsstring :=
  if i <? length data then
    match fuel with
    | O => None
    | S fuel' =>
        let r := channelSample (index data i) in
        let g := channelSample (index data (i + 1)) in
        let b := channelSample (index data (i + 2)) in
        pixelLoop fuel' channels data (i + channels)
                  (ppmContent ++ fromCharCode [r; g; b])
    end
  else Some ppmContent.

Definition ppmHeader (width height : N) : jsstring :=
  lit "P6" ++ LF ++ toString width ++ lit " " ++ toString height ++ LF
  ++ lit "255" ++ LF.

(** The string handed to [writeFileSync] for one frame. *)
Definition ppmContent (width height channels : N) (frame : Frame)
    : option jsstring :=
  pixelLoop (length (tensor_data frame)) (N.to_nat channels)
            (tensor_data frame) 0 (ppmHeader width height).

(** The name of the staged image of the frame at position [frameIndex]. *)
Definition frameName (frameIndex : N) : jsstring :=
  lit "frame_" ++ padStart 6 (lit "0") (toString frameIndex) ++ lit ".ppm".

Definition framePath (tempDir : jsstring) (frameIndex : N) : jsstring :=
  join tempDir (frameName frameIndex).

(** ** Errors, the world and the effect monad *)

(** What is thrown: [new Error(message)] by the endpoint itself, a rejected
    [fetch] or [response.json()], a failed file-system call, a failed
    external process. *)
Inductive Err : Type :=
  | Error (message : jsstring)
  | FetchFailure (reason : jsstring)
  | FsFailure (code path : jsstring)
  | ExecFailure (diagnostic : jsstring).

(** The part of the machine the endpoint touches: the files (path to bytes),
    the paths whose content cannot be written and the paths that cannot be
    unlinked (permissions of the file and of its directory), the commands
    handed to [exec] so far, and the console. *)
Record World : Type := mkWorld {
  files : gmap jsstring (list N);
  unwritable : gset jsstring;
  undeletable : gset jsstring;
  execs : list jsstring;
  console : list (jsstring * Err)
}.

(** How a computation ends: with a value, with an exception, or not at
    all. *)
Inductive Completion (A : Type) : Type :=
  | Return (a : A)
  | Throw (e : Err)
  | Diverge.
Arguments Return {A} a.
Arguments Throw {A} e.
Arguments Diverge {A}.

Definition M (A : Type) : Type := World -> Completion A * World.

Definition ret {A} (a : A) : M A := fun w => (Return a, w).
Definition throw {A} (e : Err) : M A := fun w => (Throw e, w).
Definition diverge {A} : M A := fun w => (Diverge, w).

Definition bind {A B} (m : M A) (k : A -> M B) : M B :=
  fun w =>
    match m w with
    | (Return a, w') => k a w'
    | (Throw e, w') => (Throw e, w')
    | (Diverge, w') => (Diverge, w')
    end.

Notation "x <- m ;; k" := (bind m (fun x => k))
  (at level 100, m at next level, right associativity).
Notation "m ;;; k" := (bind m (fun _ => k))
  (at level 100, right associativity).

(** [try { m } catch (error) { handler error }]. *)
Definition try_catch {A} (m : M A) (handler : Err -> M A) : M A :=
  fun w =>
    match m w with
    | (Throw e, w') => handler e w'
    | other => other
    end.

(** [try { m } finally { cleanup }]: the cleanup runs after a value and after
    an exception; the completion of [m] stands unless the cleanup itself
    throws, and that exception then replaces it. *)
Definition try_finally {A} (m : M A) (cleanup : M unit) : M A :=
  fun w =>
    match m w with
    | (Diverge, w') => (Diverge, w')
    | (completion, w') =>
        match cleanup w' with
        | (Return _, w'') => (completion, w'')
        | (Throw e, w'') => (Throw e, w'')
        | (Diverge, w'') => (Diverge, w'')
        end
    end.

Definition set_files (fs : gmap jsstring (list N)) (w : World) : World :=
  mkWorld fs (unwritable w) (undeletable w) (execs w) (console w).

(** [console.error(label, error)] and [console.warn(label, error)]. *)
Definition console_log (label : jsstring) (e : Err) : M unit :=
  fun w => (Return tt,
            mkWorld (files w) (unwritable w) (undeletable w) (execs w)
                    (console w ++ [(label, e)])).

(** The bytes of a string in UTF-8, the encoding [writeFileSync] applies to a
    string when none is given.  Surrogate pairs are not combined: no string of
    the endpoint holds a surrogate. *)
Definition utf8_unit (c : N) : list N :=
  if (c <? 128)%N then [c]
  else if (c <? 2048)%N then
    [N.lor 192 (N.shiftr c 6); N.lor 128 (N.land c 63)]
  else
    [N.lor 224 (N.shiftr c 12); N.lor 128 (N.land (N.shiftr c 6) 63);
     N.lor 128 (N.land c 63)].

Definition utf8 (s : jsstring) : list N := s ≫= utf8_unit.

Definition writeFileSync (path : jsstring) (data : jsstring) : M unit :=
  fun w =>
    if decide (path ∈ unwritable w) then (Throw (FsFailure (lit "EACCES") path), w)
    else (Return tt, set_files (<[path := utf8 data]> (files w)) w).

Definition existsSync (path : jsstring) : M bool :=
  fun w => (Return (bool_decide (is_Some (files w !! path))), w).

Definition unlinkSync (path : jsstring) : M unit :=
  fun w =>
    match files w !! path with
    | None => (Throw (FsFailure (lit "ENOENT") path), w)
    | Some _ =>
        if decide (path ∈ undeletable w)
        then (Throw (FsFailure (lit "EPERM") path), w)
        else (Return tt, set_files (delete path (files w)) w)
    end.

Definition readFileSync (path : jsstring) : M (list N) :=
  fun w =>
    match files w !! path with
    | None => (Throw (FsFailure (lit "ENOENT") path), w)
    | Some bytes => (Return bytes, w)
    end.

(** What a [fetch] followed by [response.json()] can give: a rejected
    promise, or a response with its [ok] flag, its status text and the parsed
    body (or the exception of the parse). *)
Inductive FetchOutcome : Type :=
  | Rejected (e : Err)
  | Responded (ok : bool) (statusText : jsstring) (json : Err + VideoTensorData).

(** The arithmetic of doubles that rounds. *)
Record FloatOps : Type := mkFloatOps {
  fadd : jsnum -> jsnum -> jsnum;
  fmul : jsnum -> jsnum -> jsnum;
  fdiv : jsnum -> jsnum -> jsnum;
  Math_sin : jsnum -> jsnum;
  Math_cos : jsnum -> jsnum
}.

(** ** Dates *)

(** [new Date(t).toISOString()] for a time value [t] in milliseconds since the
    epoch, within the years 0 to 9999 (outside them the year takes a sign and
    six digits).  The calendar date is computed from the day number by eras of
    400 years. *)
Definition pad_decimal (width : nat) (z : Z) : jsstring :=
  padStart width (lit "0") (toString (Z.to_N z)).

Definition civil_from_days (days : Z) : Z * Z * Z :=
  let z := (days + 719468)%Z in
  let era := (z / 146097)%Z in
  let doe := (z - era * 146097)%Z in
  let yoe := ((doe - doe / 1460 + doe / 36524 - doe / 146096) / 365)%Z in
  let doy := (doe - (365 * yoe + yoe / 4 - yoe / 100))%Z in
  let mp := ((5 * doy + 2) / 153)%Z in
  let d := (doy - (153 * mp + 2) / 5 + 1)%Z in
  let m := (if (mp <? 10)%Z then mp + 3 else mp - 9)%Z in
  let y := (yoe + era * 400 + (if (m <=? 2)%Z then 1 else 0))%Z in
  (y, m, d).

Definition Date_toISOString (t : Z) : jsstring :=
  let '(y, m, d) := civil_from_days (t / 86400000) in
  let ms := (t mod 86400000)%Z in
  pad_decimal 4 y ++ lit "-" ++ pad_decimal 2 m ++ lit "-" ++ pad_decimal 2 d
  ++ lit "T" ++ pad_decimal 2 (ms / 3600000) ++ lit ":"
  ++ pad_decimal 2 (ms / 60000 mod 60) ++ lit ":"
  ++ pad_decimal 2 (ms / 1000 mod 60) ++ lit "."
  ++ pad_decimal 3 (ms mod 1000) ++ lit "Z".

(** ** The endpoint *)

(** The body of the request after [request.json()]. *)
Record RequestBody : Type := mkRequestBody {
  tensor_url : option jsstring;
  req_camera_name : option jsstring
}.

Inductive Response : Type :=
  | VideoResponse (body : list N) (headers : list (jsstring * jsstring))
  | JsonResponse (error : jsstring) (status : N).

(** [tensor[i] = v]: an index past the end extends the array with holes. *)
Definition array_set (arr : list jsval) (i : nat) (v : jsnum) : list jsval :=
  if i <? length arr then <[i := JNum v]> arr
  else arr ++ replicate (i - length arr) JUndefined ++ [JNum v].

Section Endpoint.

(** [process.cwd()]. *)
Variable cwd : jsstring.
(** The external encoder: from the command line and the files it finds to
    its failure, if any, and the files it leaves.  The process is taken to
    end: one that never exits (the source awaits it without a timeout) is
    not represented. *)
Variable ffmpeg :
  jsstring -> gmap jsstring (list N) -> option Err * gmap jsstring (list N).
(** The network.  The request is taken to complete, with a response or a
    rejection. *)
Variable fetch : jsstring -> FetchOutcome.
(** The rounding arithmetic. *)
Variable F : FloatOps.
(** [Date.now()]: the reading of the k-th call of a request. *)
Variable now : nat -> Z.

Definition tempDir : jsstring := join cwd (lit "temp_frames").
Definition outputPath : jsstring := join cwd (lit "temp_video.mp4").

Definition fetchTensorData (url : jsstring) : M VideoTensorData :=
  try_catch
    (match fetch url with
     | Rejected e => throw e
     | Responded ok statusText json =>
         if negb ok
         then throw (Error (lit "Failed to fetch tensor data: " ++ statusText))
         else match json with
              | inl e => throw e
              | inr data => ret data
              end
     end)
    (fun error =>
       console_log (lit "Error fetching tensor data:") error ;;;
       throw error).

(** [await execAsync(command)]. *)
Definition execAsync (command : jsstring) : M unit :=
  fun w =>
    let '(failure, fs) := ffmpeg command (files w) in
    let w' := mkWorld fs (unwritable w) (undeletable w)
                      (execs w ++ [command]) (console w) in
    match failure with
    | Some e => (Throw e, w')
    | None => (Return tt, w')
    end.

(** The loop that stages one image per frame, from position [frameIndex]
    on. *)
Fixpoint writeFrames (width height channels : N) (frames : list Frame)
    (frameIndex : N) : M unit :=
  match frames with
  | [] => ret tt
  | frame :: rest =>
      match ppmContent width height channels frame with
      | None => diverge
      | Some content =>
          writeFileSync (framePath tempDir frameIndex) content ;;;
          writeFrames width height channels rest (frameIndex + 1)%N
      end
  end.

Definition ffmpegCommand : jsstring :=
  lit "ffmpeg -y -framerate 30 -i " ++ tempDir
  ++ lit "/frame_%06d.ppm -c:v libx264 -pix_fmt yuv420p -crf 23 "
  ++ outputPath.

(** The [try] block of [convertTensorToVideo]. *)
Definition encode (tensorData : VideoTensorData) : M (list N) :=
  writeFrames (width tensorData) (height tensorData) (channels tensorData)
              (frames tensorData) 0%N ;;;
  execAsync ffmpegCommand ;;;
  videoBuffer <- readFileSync outputPath ;;
  ret videoBuffer.

(** [if (existsSync(path)) { unlinkSync(path); }]. *)
Definition removeIfPresent (path : jsstring) : M unit :=
  present <- existsSync path ;;
  if present then unlinkSync path else ret tt.

(** The loop that removes the staged images of [count] positions, from
    position [i] on. *)
Fixpoint removeFrames (count : nat) (i : N) : M unit :=
  match count with
  | O => ret tt
  | S count' =>
      removeIfPresent (framePath tempDir i) ;;;
      removeFrames count' (i + 1)%N
  end.

(** The [finally] block of [convertTensorToVideo]. *)
Definition cleanup (tensorData : VideoTensorData) : M unit :=
  try_catch
    (removeFrames (length (frames tensorData)) 0%N ;;;
     removeIfPresent outputPath)
    (fun cleanupError => console_log (lit "Cleanup error:") cleanupError).

Definition convertTensorToVideo (tensorData : VideoTensorData)
    : M (list N) :=
  try_finally (encode tensorData) (cleanup tensorData).

(** *** The mock generator *)

Definition mock_frames : N := 60.
Definition mock_width : N := 320.
Definition mock_height : N := 240.
Definition mock_channels : N := 3.

Definition numN (n : nat) : jsnum := num (Z.of_nat n).

(** [Math.floor(base + amp * trig(normalizedX * kx + time * kt))].  A
    decimal literal stands for the double nearest to it. *)
Definition wave (trig : jsnum -> jsnum) (normalizedX time : jsnum)
    (base amp kx kt : Q) : jsnum :=
  Math_floor
    (fadd F (Fin base)
       (fmul F (Fin amp)
          (trig (fadd F (fmul F normalizedX (Fin kx))
                        (fmul F time (Fin kt)))))).

(** The body of the two pixel loops. *)
Definition mockPixel (cameraName : jsstring) (time : jsnum)
    (tensor : list jsval) (y x : nat) : list jsval :=
  let pixelIndex :=
    (y * N.to_nat mock_width + x) * N.to_nat mock_channels in
  let normalizedX := fdiv F (numN x) (num (Z.of_N mock_width)) in
  if includes cameraName (lit "Front") then
    let r := wave (Math_sin F) normalizedX time 80 40 3 0.2 in
    let g := wave (Math_cos F) normalizedX time 90 30 2 0.3 in
    let b := wave (Math_sin F) normalizedX time 100 25 4 0.1 in
    array_set (array_set (array_set tensor pixelIndex r)
                         (pixelIndex + 1) g) (pixelIndex + 2) b
  else
    let r := wave (Math_sin F) normalizedX time 120 30 5 0.4 in
    let g := wave (Math_cos F) normalizedX time 130 25 4 0.3 in
    let b := wave (Math_sin F) normalizedX time 140 20 6 0.2 in
    array_set (array_set (array_set tensor pixelIndex r)
                         (pixelIndex + 1) g) (pixelIndex + 2) b.

(** The callback of [Array.from]: frame [frameIndex], built when the clock
    reads [now frameIndex]. *)
Definition mockFrame (cameraName : jsstring) (frameIndex : nat) : Frame :=
  let time := fmul F (numN frameIndex) (Fin 0.1%Q) in
  let tensor :=
    replicate (N.to_nat (mock_width * mock_height * mock_channels))
              JUndefined in
  let tensor :=
    foldl (fun tensor y =>
             foldl (fun tensor x => mockPixel cameraName time tensor y x)
                   tensor (seq 0 (N.to_nat mock_width)))
          tensor (seq 0 (N.to_nat mock_height)) in
  mkFrame (N.of_nat frameIndex)
          (Date_toISOString (now frameIndex + Z.of_nat frameIndex * 33))
          tensor mock_width mock_height mock_channels.

Definition generateMockTensorData (cameraName : jsstring)
    : VideoTensorData :=
  mkVideoTensorData cameraName
    (map (mockFrame cameraName) (seq 0 (N.to_nat mock_frames)))
    mock_width mock_height mock_channels.

(** *** The request handler *)

(** [if (tensor_url)]: an absent and an empty locator are both falsy. *)
Definition supplied (url : option jsstring) : option jsstring :=
  match url with
  | Some (c :: rest) => Some (c :: rest)
  | _ => None
  end.

Definition POST (body : RequestBody) : M Response :=
  try_catch
    (let camera_name :=
       default (lit "Front Camera") (req_camera_name body) in
     tensorData <-
       match supplied (tensor_url body) with
       | Some url => fetchTensorData url
       | None => ret (generateMockTensorData camera_name)
       end ;;
     videoBuffer <- convertTensorToVideo tensorData ;;
     ret (VideoResponse videoBuffer
            [(lit "Content-Type", lit "video/mp4");
             (lit "Content-Length",
              toString (N.of_nat (length videoBuffer)));
             (lit "Cache-Control", lit "public, max-age=3600")]))
    (fun error =>
       console_log (lit "Error processing video request:") error ;;;
       ret (JsonResponse (lit "Failed to convert tensor data to video") 500)).

End Endpoint.

(** ** What the design document says, in its own words *)

(** The packed value of a sample: [max(0, min(255, floor(v)))], read on the
    extended reals for the two infinities, and 0 for what is not a value (a
    missing sample, not-a-number). *)
Definition spec_sample (v : jsval) : Z :=
  match v with
  | JNum (Fin q) => Z.max 0 (Z.min 255 (Qfloor q))
  | JNum PInf => 255
  | JNum NInf => 0
  | JNum NaN => 0
  | JUndefined => 0
  end.

(** The samples of pixel [p] when the stride is [channels]. *)
Definition pixelAt (channels : nat) (data : list jsval) (p : nat) : jsstring :=
  map (fun k => Z.to_N (spec_sample (index data (p * channels + k)))) [0; 1; 2].

(** The number of pixels the loop emits: one per started group of [channels]
    values. *)
Definition pixelCount (channels len : nat) : nat := (len + channels - 1) / channels.

(** The paths the encoder stages files at for a payload: the output
    container and one image per position of the frame sequence. *)
Definition staged (cwd : jsstring) (tensorData : VideoTensorData)
    (path : jsstring) : Prop :=
  path = outputPath cwd
  \/ exists i, i < length (frames tensorData)
             /\ path = framePath (tempDir cwd) (N.of_nat i).



(** What the resolver must fail with when the retrieval of a locator does
    not succeed: the rejection itself, or an error that carries the status
    text of the response. *)
Definition fetchFailed (outcome : FetchOutcome) : Prop :=
  match outcome with
  | Rejected _ => True
  | Responded ok _ _ => ok = false
  end.

Definition sourceFetchError (outcome : FetchOutcome) : Err :=
  match outcome with
  | Rejected e => e
  | Responded _ statusText _ =>
      Error (lit "Failed to fetch tensor data: " ++ statusText)
  end.

(** The instant, in milliseconds, that the timestamp of the mock frame at
    position [k] renders, for the clock readings [now]. *)
Definition frameInstant (now : nat -> Z) (k : nat) : Z :=
  (now k + Z.of_nat k * 33)%Z.

(** A payload with the timestamps of its frames blanked. *)
Definition eraseTimestamp (f : Frame) : Frame :=
  mkFrame (frame_index f) [] (tensor_data f)
          (frame_width f) (frame_height f) (frame_channels f).

Definition eraseTimestamps (tensorData : VideoTensorData) : VideoTensorData :=
  mkVideoTensorData (camera_name tensorData)
                    (map eraseTimestamp (frames tensorData))
                    (width tensorData) (height tensorData)
                    (channels tensorData).

(** A world with no file and no restriction. *)
Definition emptyWorld : World := mkWorld ∅ ∅ ∅ [] [].

(** A decimal digit, and the number a string of digits denotes. *)
Definition isDigit (c : N) : Prop := (48 <= c <= 57)%N.

Fixpoint digitsValue (s : jsstring) : N :=
  match s with
  | [] => 0
  | c :: s' => (c - 48) * 10 ^ N.of_nat (length s') + digitsValue s'
  end%N.

(** ** Notions for the properties of the encoder and of the mock payload *)

(** The image of a frame when the stride is positive: the header and one
    triple per started group of values. *)
Definition frameImage (w h c : N) (f : Frame) : jsstring :=
  ppmHeader w h
  ++ flat_map (pixelAt (N.to_nat c) (tensor_data f))
       (seq 0 (pixelCount (N.to_nat c) (length (tensor_data f)))).

(** The samples of a frame's image, after the header. *)
Definition frameBody (c : N) (f : Frame) : jsstring :=
  flat_map (pixelAt (N.to_nat c) (tensor_data f))
    (seq 0 (pixelCount (N.to_nat c) (length (tensor_data f)))).

(** The three samples the mock generator computes for column [x] at frame
    time [time]: the red, green and blue waves of the camera's parameter
    set. *)
Definition mockRGB (F : FloatOps) (cameraName : jsstring) (time : jsnum)
    (x : nat) : jsnum * jsnum * jsnum :=
  let normalizedX := fdiv F (numN x) (num (Z.of_N mock_width)) in
  if includes cameraName (lit "Front") then
    (wave F (Math_sin F) normalizedX time 80 40 3 0.2,
     wave F (Math_cos F) normalizedX time 90 30 2 0.3,
     wave F (Math_sin F) normalizedX time 100 25 4 0.1)
  else
    (wave F (Math_sin F) normalizedX time 120 30 5 0.4,
     wave F (Math_cos F) normalizedX time 130 25 4 0.3,
     wave F (Math_sin F) normalizedX time 140 20 6 0.2).

Definition channelOf (rgb : jsnum * jsnum * jsnum) (ch : nat) : jsnum :=
  match ch with
  | 0 => rgb.1.1
  | 1 => rgb.1.2
  | _ => rgb.2
  end.

(** Three consecutive array writes. *)
Definition set3 (t : list jsval) (i : nat) (rgb : jsnum * jsnum * jsnum)
    : list jsval :=
  array_set (array_set (array_set t i rgb.1.1) (i + 1) rgb.1.2) (i + 2) rgb.2.

(** The payload the handler resolves for a request: fetched when a locator
    is supplied, synthesized otherwise. *)
Definition resolvedPayload (fetch : jsstring -> FetchOutcome) (F : FloatOps)
    (now : nat -> Z) (body : RequestBody) : M VideoTensorData :=
  match supplied (tensor_url body) with
  | Some url => fetchTensorData fetch url
  | None =>
      ret (generateMockTensorData F now
             (default (lit "Front Camera") (req_camera_name body)))
  end.

(** The code units of a string that UTF-8 writes as more than one byte. *)
Definition wideUnits (s : jsstring) : list N :=
  filter (fun u => (128 <= u)%N) s.

(** ** Sample inputs *)

(** A frame of one pixel and a third: 300.5, -5, 3.5 and 9. *)
Definition sampleFrame : Frame :=
  mkFrame 0 [] [JNum (Fin 300.5%Q); JNum (Fin (-5)%Q); JNum (Fin 3.5%Q);
                JNum (num 9)] 2 1 3.

(** A frame of one bright red pixel. *)
Definition redFrame : Frame :=
  mkFrame 0 [] [JNum (num 255); JNum (num 0); JNum (num 0)] 1 1 3.

(** The payload of one red pixel, an encoder that writes three bytes to the
    output path, and a world where the image of frame 0 cannot be unlinked. *)
Definition redPayload : VideoTensorData :=
  mkVideoTensorData (lit "Front Camera") [redFrame] 1 1 3.

Definition toyEncoder (command : jsstring) (fs : gmap jsstring (list N))
    : option Err * gmap jsstring (list N) :=
  (None, <[outputPath (lit "/app") := [1; 2; 3]%N]> fs).

Definition protectedWorld : World :=
  mkWorld ∅ ∅ {[ framePath (tempDir (lit "/app")) 0 ]} [] [].


(** A server that answers every locator with 404 Not Found. *)
Definition notFound (url : jsstring) : FetchOutcome :=
  Responded false (lit "Not Found") (inl (Error (lit "Unexpected token")))%type.

Definition exactOps : FloatOps :=
  mkFloatOps (fun a _ => a) (fun a _ => a) (fun a _ => a)
             (fun a => a) (fun a => a).

(** A clock that advances by 5 ms while the second frame is built. *)
Definition steppingClock (k : nat) : Z := if k <? 2 then 0%Z else 5%Z.

(** An encoder that fails with a diagnostic, one that ends well without
    writing anything, a world where the image of frame 0 cannot be written,
    and a world that holds one file of somebody else. *)
Definition failingEncoder (command : jsstring) (fs : gmap jsstring (list N))
    : option Err * gmap jsstring (list N) :=
  (Some (ExecFailure (lit "Command failed: ffmpeg")), fs).

Definition idleEncoder (command : jsstring) (fs : gmap jsstring (list N))
    : option Err * gmap jsstring (list N) :=
  (None, fs).

Definition lockedWorld : World :=
  mkWorld ∅ {[ framePath (tempDir (lit "/app")) 0 ]} ∅ [] [].

Definition busyWorld : World :=
  mkWorld {[ lit "/app/package.json" := [123; 125]%N ]} ∅ ∅ [] [].

Definition emptyPayload : VideoTensorData :=
  mkVideoTensorData (lit "Front Camera") [] 2 2 3.

(** A server that answers with the payload of one red pixel. *)
Definition redServer (url : jsstring) : FetchOutcome :=
  Responded true (lit "OK") (inr redPayload).

(** A server whose answer is not JSON. *)
Definition garbledServer (url : jsstring) : FetchOutcome :=
  Responded true (lit "OK") (inl (Error (lit "Unexpected token <"))).




(** A frame with a bright first sample; a frame of one pixel for a payload
    of four; two payloads of a red and a blue pixel, in the same order in the
    sequence, with their [frame_index] fields 0, 1 and 1, 0. *)
Definition brightFrame : Frame :=
  mkFrame 0 [] [JNum (Fin 200.9%Q); JNum (Fin (-3)%Q); JNum (num 127)] 1 1 3.

Definition shortFrame : Frame :=
  mkFrame 0 [] [JNum (num 255); JNum (num 0); JNum (num 0)] 2 2 3.




(** * Properties *)

(** ** Samples *)

Lemma Qfloor_of_zero (q : Q) : Qeq_bool q 0 = true -> Qfloor q = 0%Z.
Proof.
  intros H. apply Qeq_bool_iff in H.
  rewrite (Qfloor_comp _ _ H). reflexivity.
Qed.

Lemma Qle_bool_inject (a b : Z) :
  Qle_bool (inject_Z a) (inject_Z b) = (a <=? b)%Z.
Proof.
  unfold Qle_bool, inject_Z; simpl. rewrite !Z.mul_1_r. reflexivity.
Qed.

Lemma Math_min_num (a b : Z) : Math_min (num a) (num b) = num (Z.min a b).
Proof.
  unfold Math_min, num. rewrite Qle_bool_inject.
  destruct (Z.leb_spec a b); f_equal; f_equal; lia.
Qed.

Lemma Math_max_num (a b : Z) : Math_max (num a) (num b) = num (Z.max a b).
Proof.
  unfold Math_max, num. rewrite Qle_bool_inject.
  destruct (Z.leb_spec a b); f_equal; f_equal; lia.
Qed.

Lemma Qfloor_inject (z : Z) : Qfloor (inject_Z z) = z.
Proof. unfold Qfloor, inject_Z. apply Z.div_1_r. Qed.

(** The code's sample is the document's, as a number. *)
Lemma channelSample_spec (v : jsval) : channelSample v = num (spec_sample v).
Proof.
  unfold channelSample, or_zero.
  destruct v as [|[q| | |]]; simpl truthy; cbn iota.
  - reflexivity.
  - destruct (Qeq_bool q 0) eqn:E; simpl negb; cbn iota.
    + change (Math_floor (num 0)) with (num 0).
      rewrite Math_min_num, Math_max_num. simpl spec_sample.
      rewrite (Qfloor_of_zero q E). reflexivity.
    + unfold Math_floor. rewrite Math_min_num, Math_max_num. reflexivity.
  - reflexivity.
  - reflexivity.
  - reflexivity.
Qed.

Lemma spec_sample_range (v : jsval) : (0 <= spec_sample v <= 255)%Z.
Proof. destruct v as [|[q| | |]]; simpl; lia. Qed.

Lemma ToUint16_num (z : Z) : (0 <= z < 65536)%Z -> ToUint16 (num z) = Z.to_N z.
Proof.
  intros H. unfold ToUint16, num, inject_Z; simpl.
  rewrite Z.quot_1_r, Z.mod_small by lia. reflexivity.
Qed.

Lemma emitted_sample (v : jsval) :
  ToUint16 (channelSample v) = Z.to_N (spec_sample v).
Proof.
  rewrite channelSample_spec. apply ToUint16_num.
  pose proof (spec_sample_range v). lia.
Qed.

Lemma index_beyond (data : list jsval) (i : nat) :
  length data <= i -> index data i = JUndefined.
Proof.
  intros H. unfold index. rewrite (proj2 (lookup_ge_None data i)) by lia.
  reflexivity.
Qed.

(** ** The pixel loop *)

Lemma pixelCount_lt (c len j : nat) :
  0 < c -> (j < pixelCount c len <-> j * c < len).
Proof.
  intros Hc. unfold pixelCount. split; intros H.
  - destruct (Nat.lt_ge_cases (j * c) len) as [|Hge]; [assumption|].
    exfalso. apply (Nat.lt_irrefl j). eapply Nat.lt_le_trans; [exact H|].
    apply Nat.lt_succ_r. apply Nat.Div0.div_lt_upper_bound. lia.
  - apply Nat.div_le_lower_bound; lia.
Qed.

Lemma pixelLoop_from (c : nat) (data : list jsval) :
  0 < c ->
  forall fuel j acc,
    pixelCount c (length data) <= j + fuel ->
    pixelLoop fuel c data (j * c) acc =
    Some (acc ++ flat_map (pixelAt c data)
                          (seq j (pixelCount c (length data) - j))).
Proof.
  intros Hc. induction fuel as [|fuel IH]; intros j acc Hfuel.
  - simpl. destruct (Nat.ltb_spec (j * c) (length data)) as [Hlt|Hge].
    + apply (pixelCount_lt c _ j Hc) in Hlt. lia.
    + replace (pixelCount c (length data) - j) with 0 by lia.
      simpl. rewrite app_nil_r. reflexivity.
  - simpl. destruct (Nat.ltb_spec (j * c) (length data)) as [Hlt|Hge].
    + pose proof (proj2 (pixelCount_lt c _ j Hc) Hlt) as Hj.
      replace (j * c + c) with (S j * c) by lia.
      rewrite IH by lia.
      replace (pixelCount c (length data) - j)
        with (S (pixelCount c (length data) - S j)) by lia.
      simpl seq. simpl flat_map. rewrite <- app_assoc.
      do 2 f_equal. unfold fromCharCode, pixelAt. simpl map.
      rewrite !emitted_sample, Nat.add_0_r. reflexivity.
    + assert (~ j < pixelCount c (length data)) as Hn
        by (rewrite (pixelCount_lt c _ j Hc); lia).
      replace (pixelCount c (length data) - j) with 0 by lia.
      simpl. rewrite app_nil_r. reflexivity.
Qed.

Lemma pixelCount_le_len (c len : nat) : 0 < c -> pixelCount c len <= len.
Proof.
  intros Hc. destruct (Nat.le_gt_cases (pixelCount c len) len) as [|H]; [assumption|].
  apply (pixelCount_lt c len len Hc) in H. nia.
Qed.

(** With a positive stride the loop ends, and what it appended is one triple
    per started group. *)
Lemma pixelLoop_total (c : nat) (data : list jsval) (acc : jsstring) :
  0 < c ->
  pixelLoop (length data) c data 0 acc =
  Some (acc ++ flat_map (pixelAt c data) (seq 0 (pixelCount c (length data)))).
Proof.
  intros Hc.
  pose proof (pixelLoop_from c data Hc (length data) 0 acc) as H.
  simpl in H. rewrite Nat.sub_0_r in H. apply H.
  apply pixelCount_le_len. assumption.
Qed.

(** With stride 0 the loop ends only when there is nothing to read. *)
Lemma pixelLoop_stuck (data : list jsval) :
  forall fuel i acc, i < length data -> pixelLoop fuel 0 data i acc = None.
Proof.
  induction fuel as [|fuel IH]; intros i acc Hi; simpl;
    destruct (Nat.ltb_spec i (length data)); try lia; [reflexivity|].
  rewrite Nat.add_0_r. apply IH. assumption.
Qed.

Lemma flat_map_triples {A} (f : nat -> list A) (n : nat) :
  (forall p, length (f p) = 3) ->
  forall start p k, p < n -> k < 3 ->
    flat_map f (seq start n) !! (3 * p + k) = f (start + p) !! k.
Proof.
  intros Hlen. induction n as [|n IH]; intros start p k Hp Hk; [lia|].
  cbn [seq flat_map]. destruct p as [|p].
  - replace (3 * 0 + k) with k by lia.
    replace (start + 0) with start by lia.
    apply lookup_app_l. rewrite Hlen. assumption.
  - rewrite lookup_app_r by (rewrite Hlen; lia).
    rewrite Hlen. replace (3 * S p + k - 3) with (3 * p + k) by lia.
    rewrite IH by lia. replace (S start + p) with (start + S p) by lia.
    reflexivity.
Qed.

Lemma length_flat_map_triples {A} (f : nat -> list A) (l : list nat) :
  (forall p, length (f p) = 3) -> length (flat_map f l) = 3 * length l.
Proof.
  intros Hlen. induction l as [|x l IH]; simpl; [reflexivity|].
  rewrite length_app, Hlen, IH. lia.
Qed.

Lemma length_pixelAt (c : nat) (data : list jsval) (p : nat) :
  length (pixelAt c data p) = 3.
Proof. reflexivity. Qed.

Lemma pixelAt_lookup (c : nat) (data : list jsval) (p k : nat) :
  k < 3 ->
  pixelAt c data p !! k = Some (Z.to_N (spec_sample (index data (p * c + k)))).
Proof.
  intros Hk. destruct k as [|[|[|k]]]; try lia; reflexivity.
Qed.

(** What [ppmContent] is when it is defined: the stride is positive as soon
    as there is data. *)
Lemma ppmContent_Some (w h c : N) (frame : Frame) (content : jsstring) :
  ppmContent w h c frame = Some content ->
  content = ppmHeader w h
            ++ flat_map (pixelAt (N.to_nat c) (tensor_data frame))
                 (seq 0 (pixelCount (N.to_nat c) (length (tensor_data frame))))
  /\ (tensor_data frame = [] \/ 0 < N.to_nat c).
Proof.
  unfold ppmContent. intros H.
  destruct (Nat.eq_dec (N.to_nat c) 0) as [Hc|Hc].
  - rewrite Hc in *. destruct (tensor_data frame) as [|v data] eqn:E.
    + simpl in H. injection H as <-. simpl. rewrite app_nil_r. auto.
    + rewrite pixelLoop_stuck in H by (simpl; lia). discriminate.
  - rewrite pixelLoop_total in H by lia. injection H as <-.
    split; [reflexivity | right; lia].
Qed.

Lemma ppmContent_lookup (w h c : N) (frame : Frame) (content : jsstring)
    (p k : nat) :
  ppmContent w h c frame = Some content ->
  p * N.to_nat c < length (tensor_data frame) ->
  k < 3 ->
  content !! (length (ppmHeader w h) + (3 * p + k)) =
  Some (Z.to_N (spec_sample (index (tensor_data frame) (p * N.to_nat c + k)))).
Proof.
  intros Hcontent Hp Hk.
  destruct (ppmContent_Some _ _ _ _ _ Hcontent) as [-> Hc].
  assert (0 < N.to_nat c) as Hpos.
  { destruct Hc as [Hnil|]; [|assumption]. rewrite Hnil in Hp. simpl in Hp. lia. }
  rewrite lookup_app_r by lia.
  replace (length (ppmHeader w h) + (3 * p + k) - length (ppmHeader w h))
    with (3 * p + k) by lia.
  rewrite flat_map_triples.
  - apply pixelAt_lookup. assumption.
  - apply length_pixelAt.
  - apply pixelCount_lt; assumption.
  - assumption.
Qed.

(** With a positive stride the image of a frame is its header and one triple
    per started group of values. *)
Lemma ppmContent_total (w h c : N) (frame : Frame) :
  (0 < c)%N ->
  ppmContent w h c frame =
  Some (ppmHeader w h
        ++ flat_map (pixelAt (N.to_nat c) (tensor_data frame))
             (seq 0 (pixelCount (N.to_nat c) (length (tensor_data frame))))).
Proof. intros Hc. apply pixelLoop_total. lia. Qed.

(** X19. With a positive channel count, every sample the pixel loop appends
    to the image string of a frame (the string later handed to
    [writeFileSync]) is the value it read, floored and clamped to 0..255: the
    sample [k] of pixel [p] is [max(0, min(255, floor(v)))] for the value [v]
    at index [p * channels + k] of [tensor_data], and 0 when that index is
    beyond the end of the array (so is a hole or not-a-number, which [|| 0]
    replaces by 0 before the clamp). *)
Theorem appended_sample_is_clamped_floor :
  forall (w h c : N) (frame : Frame) (p k : nat),
    (0 < c)%N ->
    p * N.to_nat c < length (tensor_data frame) ->
    k < 3 ->
    exists content,
      ppmContent w h c frame = Some content
      /\ let v := index (tensor_data frame) (p * N.to_nat c + k) in
         let emitted :=
           content !! (length (ppmHeader w h) + (3 * p + k)) in
         emitted = Some (Z.to_N (spec_sample v))
         /\ (forall q : Q,
               tensor_data frame !! (p * N.to_nat c + k)
               = Some (JNum (Fin q)) ->
               emitted = Some (Z.to_N (Z.max 0 (Z.min 255 (Qfloor q)))))
         /\ (length (tensor_data frame) <= p * N.to_nat c + k ->
             emitted = Some 0%N).
Proof.
  intros w h c frame p k Hc Hp Hk.
  eexists. split; [apply ppmContent_total; exact Hc|].
  intros v emitted.
  assert (emitted = Some (Z.to_N (spec_sample v))) as He.
  { subst emitted v.
    apply (ppmContent_lookup w h c frame); [|assumption..].
    apply ppmContent_total. exact Hc. }
  split; [exact He|]. split.
  - intros q Hq. rewrite He. subst v. unfold index. rewrite Hq. reflexivity.
  - intros Hmiss. rewrite He. subst v. rewrite index_beyond by assumption.
    reflexivity.
Qed.

Lemma appended_sample_is_clamped_floor_witness :
  exists content,
    ppmContent 2 1 3 sampleFrame = Some content
    /\ content !! (length (ppmHeader 2 1) + (3 * 0 + 0)) = Some 255%N
    /\ content !! (length (ppmHeader 2 1) + (3 * 1 + 1)) = Some 0%N.
Proof.
  destruct (appended_sample_is_clamped_floor 2 1 3 sampleFrame 0 0)
    as (content & Hc & _ & Hq0 & _); [reflexivity | simpl; lia | lia |].
  destruct (appended_sample_is_clamped_floor 2 1 3 sampleFrame 1 1)
    as (content' & Hc' & _ & _ & Hmiss); [reflexivity | simpl; lia | lia |].
  exists content. split; [exact Hc|].
  assert (content' = content) as -> by congruence.
  split.
  - apply (Hq0 300.5%Q). reflexivity.
  - apply Hmiss. simpl. lia.
Defined.

(** C2, as stated, fails: a frame with one pixel of data in a 2 by 2 payload
    is staged with one pixel, not four. *)
Lemma C2_counterexample :
  let frame := mkFrame 0 [] [JNum (num 255); JNum (num 0); JNum (num 0)] 2 2 3 in
  length (tensor_data frame) < N.to_nat (2 * 2 * 3)
  /\ ppmContent 2 2 3 frame = Some (ppmHeader 2 2 ++ [255; 0; 0]%N)
  /\ ~ (exists content,
          ppmContent 2 2 3 frame = Some content
          /\ length content = length (ppmHeader 2 2) + 3 * N.to_nat (2 * 2)).
Proof.
  simpl. split; [lia|]. split; [reflexivity|].
  intros [content [H Hlen]]. vm_compute in H. injection H as <-.
  vm_compute in Hlen. discriminate.
Qed.

(** ** Decimal strings and the order of file names *)

Lemma pow10_succ (k : nat) : (10 ^ N.of_nat (S k) = 10 * 10 ^ N.of_nat k)%N.
Proof. rewrite Nat2N.inj_succ. apply N.pow_succ_r'. Qed.

Lemma pow10_pos (k : nat) : (0 < 10 ^ N.of_nat k)%N.
Proof. apply N.neq_0_lt_0, N.pow_nonzero. discriminate. Qed.

Lemma digitsValue_bound (s : jsstring) :
  Forall isDigit s -> (digitsValue s < 10 ^ N.of_nat (length s))%N.
Proof.
  induction 1 as [|c s Hc _ IH].
  - reflexivity.
  - cbn [digitsValue length]. rewrite pow10_succ. unfold isDigit in Hc.
    assert ((c - 48) * 10 ^ N.of_nat (length s)
            <= 9 * 10 ^ N.of_nat (length s))%N
      by (apply N.mul_le_mono_r; lia).
    lia.
Qed.

Lemma digitsValue_snoc (s : jsstring) (c : N) :
  (digitsValue (s ++ [c]) = digitsValue s * 10 + (c - 48))%N.
Proof.
  induction s as [|x s IH].
  - simpl. lia.
  - cbn [app digitsValue]. rewrite IH, length_app. simpl length.
    replace (length s + 1) with (S (length s)) by lia.
    rewrite pow10_succ. lia.
Qed.

Lemma isDigit_last (m : N) : (m < 10)%N -> Forall isDigit [(48 + m)%N].
Proof.
  intros Hm. apply Forall_cons_2; [unfold isDigit; lia | apply Forall_nil_2].
Qed.

Lemma digits_fuel_spec (fuel : nat) :
  forall (n : N) (acc : jsstring),
    (n < 10 ^ N.of_nat fuel)%N ->
    exists d,
      digits_fuel fuel n acc = d ++ acc
      /\ Forall isDigit d
      /\ digitsValue d = n
      /\ forall k, 0 < k -> (n < 10 ^ N.of_nat k)%N -> length d <= k.
Proof.
  induction fuel as [|fuel IH]; intros n acc Hn.
  - exists []. simpl in *. repeat split; [constructor | lia | intros; simpl; lia].
  - cbn [digits_fuel].
    pose proof (N.div_mod n 10 ltac:(discriminate)) as Hdm.
    pose proof (N.mod_lt n 10 ltac:(discriminate)) as Hm.
    assert (forall k, (n < 10 ^ N.of_nat (S k))%N ->
                      (n / 10 < 10 ^ N.of_nat k)%N) as Hdiv.
    { intros k Hk. rewrite pow10_succ in Hk.
      apply N.Div0.div_lt_upper_bound. exact Hk. }
    set (q := (n / 10)%N) in *. set (m := (n mod 10)%N) in *.
    clearbody q m.
    destruct (N.eqb_spec q 0) as [Hz|Hnz].
    + exists [(48 + m)%N]. repeat split.
      * apply isDigit_last. exact Hm.
      * simpl. lia.
      * intros k Hk _. simpl. lia.
    + destruct (IH q ((48 + m)%N :: acc) (Hdiv fuel Hn))
        as (d & Hd & Hdig & Hval & Hlen).
      exists (d ++ [(48 + m)%N]). repeat split.
      * rewrite Hd, <- app_assoc. reflexivity.
      * apply Forall_app. split; [assumption | apply isDigit_last; exact Hm].
      * rewrite digitsValue_snoc, Hval. lia.
      * intros k Hk Hnk. rewrite length_app. simpl length.
        destruct k as [|k]; [lia|].
        destruct k as [|k]; [simpl in Hnk; lia|].
        specialize (Hlen (S k) ltac:(lia) (Hdiv (S k) Hnk)). lia.
Qed.

Lemma toString_fuel (n : N) : (n < 10 ^ N.of_nat (S (N.to_nat (N.log2 n))))%N.
Proof.
  rewrite Nat2N.inj_succ, N2Nat.id.
  destruct n as [|p]; [reflexivity|].
  eapply N.lt_le_trans.
  - apply N.log2_spec. reflexivity.
  - apply N.pow_le_mono_l. lia.
Qed.

(** [toString] gives the decimal digits of its argument, no more of them
    than the argument needs. *)
Lemma toString_spec (n : N) :
  Forall isDigit (toString n)
  /\ digitsValue (toString n) = n
  /\ forall k, 0 < k -> (n < 10 ^ N.of_nat k)%N -> length (toString n) <= k.
Proof.
  destruct (digits_fuel_spec _ n [] (toString_fuel n)) as (d & Hd & H).
  unfold toString. rewrite Hd, app_nil_r. exact H.
Qed.

Lemma padStart_zero (k : nat) (s : jsstring) :
  padStart k (lit "0") s = replicate (k - length s) 48%N ++ s.
Proof.
  unfold padStart. f_equal. generalize (k - length s) as m.
  intros m. change (lit "0") with [48%N].
  assert (forall a, mjoin (replicate a [48%N]) = replicate a 48%N) as ->.
  { induction a as [|a IH]; simpl; [reflexivity|]. f_equal. exact IH. }
  rewrite take_replicate. f_equal. lia.
Qed.

Lemma digitsValue_zeros (m : nat) (s : jsstring) :
  digitsValue (replicate m 48%N ++ s) = digitsValue s.
Proof. induction m as [|m IH]; simpl; [reflexivity|]. rewrite IH. lia. Qed.

(** A number below [10 ^ k], padded to [k] places: exactly [k] digits that
    denote it. *)
Lemma padded_spec (k : nat) (n : N) :
  0 < k -> (n < 10 ^ N.of_nat k)%N ->
  let s := padStart k (lit "0") (toString n) in
  length s = k /\ Forall isDigit s /\ digitsValue s = n.
Proof.
  intros Hk Hn s. subst s. rewrite padStart_zero.
  destruct (toString_spec n) as (Hdig & Hval & Hlen).
  specialize (Hlen k Hk Hn). repeat split.
  - rewrite length_app, length_replicate. lia.
  - apply Forall_app. split; [|assumption].
    apply Forall_replicate. unfold isDigit. lia.
  - rewrite digitsValue_zeros. assumption.
Qed.

Lemma jsstring_ltb_irrefl (s : jsstring) : jsstring_ltb s s = false.
Proof.
  induction s as [|x s IH]; simpl; [reflexivity|].
  rewrite N.ltb_irrefl, N.eqb_refl. exact IH.
Qed.

Lemma jsstring_ltb_app_prefix (pre a b : jsstring) :
  jsstring_ltb (pre ++ a) (pre ++ b) = jsstring_ltb a b.
Proof.
  induction pre as [|x pre IH]; simpl; [reflexivity|].
  rewrite N.ltb_irrefl, N.eqb_refl. exact IH.
Qed.

Lemma jsstring_ltb_app_suffix (suffix : jsstring) :
  forall a b, length a = length b ->
    jsstring_ltb (a ++ suffix) (b ++ suffix) = jsstring_ltb a b.
Proof.
  induction a as [|x a IH]; intros [|y b] Hlen; try discriminate.
  - simpl. apply jsstring_ltb_irrefl.
  - simpl. rewrite IH by (simpl in Hlen; lia). reflexivity.
Qed.

(** On strings of digits of one length the order of the strings is the order
    of the numbers. *)
Lemma jsstring_ltb_digits :
  forall a b, length a = length b -> Forall isDigit a -> Forall isDigit b ->
    (jsstring_ltb a b = true <-> (digitsValue a < digitsValue b)%N).
Proof.
  induction a as [|x a IH]; intros [|y b] Hlen Ha Hb; try discriminate.
  - simpl. split; [discriminate | lia].
  - apply Forall_cons_1 in Ha as [Hx Ha]. apply Forall_cons_1 in Hb as [Hy Hb].
    simpl in Hlen. injection Hlen as Hlen.
    pose proof (digitsValue_bound a Ha) as Hba.
    pose proof (digitsValue_bound b Hb) as Hbb.
    cbn [jsstring_ltb digitsValue]. rewrite <- Hlen in *.
    unfold isDigit in Hx, Hy.
    set (P := (10 ^ N.of_nat (length a))%N) in *.
    destruct (N.ltb_spec x y) as [Hlt|Hge].
    + assert ((x - 48 + 1) * P <= (y - 48) * P)%N
        by (apply N.mul_le_mono_r; lia).
      split; [intros _; lia | reflexivity].
    + destruct (N.eqb_spec x y) as [->|Hne].
      * rewrite (IH b Hlen Ha Hb). lia.
      * assert ((y - 48 + 1) * P <= (x - 48) * P)%N
          by (apply N.mul_le_mono_r; lia).
        split; [discriminate | lia].
Qed.

(** The padded index of a frame below the millionth. *)
Lemma frameName_shape (i : N) :
  (i < 1000000)%N ->
  exists d, frameName i = lit "frame_" ++ d ++ lit ".ppm"
            /\ length d = 6 /\ Forall isDigit d /\ digitsValue d = i.
Proof.
  intros Hi. exists (padStart 6 (lit "0") (toString i)).
  split; [reflexivity|]. apply padded_spec; [lia | exact Hi].
Qed.

(** C7, as stated, fails from the millionth frame on: the index then has
    seven digits, and [frame_1000000.ppm] precedes [frame_999999.ppm]. *)
Lemma C7_counterexample :
  ~ (forall n i j : N, (i < n)%N -> (j < n)%N ->
       ((i < j)%N <-> jsstring_ltb (frameName i) (frameName j) = true)).
Proof.
  intros H.
  specialize (H 1000001%N 999999%N 1000000%N eq_refl eq_refl).
  destruct H as [H _]. specialize (H eq_refl). vm_compute in H. discriminate.
Qed.

(** C7, amended. For a payload of at most 1,000,000 frames: the name of the
    staged image of the frame at position [i] is [frame_], the six decimal
    digits of [i] (zero-padded) and [.ppm], and for all positions [i] and
    [j], [i < j] exactly when the path of [i] precedes the path of [j] in the
    order of strings. *)
Theorem C7_names_ordered_below_a_million :
  forall (dir : jsstring) (i j : N),
    (i < 1000000)%N -> (j < 1000000)%N ->
    (exists d, frameName i = lit "frame_" ++ d ++ lit ".ppm"
               /\ length d = 6 /\ Forall isDigit d /\ digitsValue d = i)
    /\ ((i < j)%N <->
        jsstring_ltb (framePath dir i) (framePath dir j) = true).
Proof.
  intros dir i j Hi Hj. split; [apply frameName_shape; exact Hi|].
  destruct (frameName_shape i Hi) as (a & Ea & La & Da & Va).
  destruct (frameName_shape j Hj) as (b & Eb & Lb & Db & Vb).
  unfold framePath, join. rewrite Ea, Eb.
  rewrite !jsstring_ltb_app_prefix.
  rewrite jsstring_ltb_app_suffix by congruence.
  rewrite jsstring_ltb_digits by (congruence || assumption).
  rewrite Va, Vb. reflexivity.
Qed.

Lemma C7_names_ordered_below_a_million_witness :
  (999 < 1000)%N <->
  jsstring_ltb (framePath (lit "/app/temp_frames") 999)
               (framePath (lit "/app/temp_frames") 1000) = true.
Proof.
  apply (C7_names_ordered_below_a_million (lit "/app/temp_frames") 999 1000);
    reflexivity.
Defined.

(** ** The bytes of a staged image *)

Lemma utf8_ascii (s : jsstring) :
  Forall (fun c => (c < 128)%N) s -> utf8 s = s.
Proof.
  unfold utf8. induction 1 as [|c s Hc _ IH]; [reflexivity|].
  cbn [mbind list_bind]. fold (s ≫= utf8_unit). rewrite IH.
  unfold utf8_unit. destruct (N.ltb_spec c 128); [reflexivity | lia].
Qed.

(** C3 fails on the code: a sample of 128 or more is written as two bytes.
    The image of one red pixel is staged with a body of four bytes, not the
    three bytes 255, 0, 0. *)
Theorem C3_bright_sample_takes_two_bytes :
  ppmContent 1 1 3 redFrame = Some (ppmHeader 1 1 ++ [255; 0; 0]%N)
  /\ files (writeFrames (lit "/app") 1 1 3 [redFrame] 0 emptyWorld).2
       !! framePath (tempDir (lit "/app")) 0
     = Some (ppmHeader 1 1 ++ [195; 191; 0; 0]%N).
Proof. split; vm_compute; reflexivity. Qed.

(** ** Cleanup *)

Section Cleanup.

Variable cwd : jsstring.
Variable ffmpeg :
  jsstring -> gmap jsstring (list N) -> option Err * gmap jsstring (list N).

(** The permissions are not touched by staging and encoding. *)
Lemma writeFrames_undeletable (w h c : N) (fs : list Frame) :
  forall i world,
    undeletable (writeFrames cwd w h c fs i world).2 = undeletable world.
Proof.
  induction fs as [|f fs IH]; intros i world; [reflexivity|].
  cbn [writeFrames]. destruct (ppmContent w h c f); [|reflexivity].
  unfold bind, writeFileSync.
  destruct (decide (framePath (tempDir cwd) i ∈ unwritable world));
    [reflexivity|].
  rewrite IH. reflexivity.
Qed.

Lemma encode_undeletable (tensorData : VideoTensorData) (world : World) :
  undeletable (encode cwd ffmpeg tensorData world).2 = undeletable world.
Proof.
  unfold encode, bind.
  pose proof (writeFrames_undeletable (width tensorData) (height tensorData)
                (channels tensorData) (frames tensorData) 0 world) as Hw.
  destruct (writeFrames _ _ _ _ _ _ world) as [[[]| |] w1]; simpl in Hw;
    try exact Hw.
  unfold execAsync.
  destruct (ffmpeg (ffmpegCommand cwd) (files w1)) as [[e|] fs]; simpl;
    [exact Hw|].
  unfold readFileSync, ret. simpl.
  destruct (fs !! outputPath cwd); simpl; exact Hw.
Qed.

Lemma removeIfPresent_ok (path : jsstring) (world : World) :
  path ∉ undeletable world ->
  removeIfPresent path world =
    (Return tt,
     match files world !! path with
     | Some _ => set_files (delete path (files world)) world
     | None => world
     end).
Proof.
  intros Hp. unfold removeIfPresent, bind, existsSync, unlinkSync, ret.
  destruct (files world !! path) as [bytes|] eqn:E; simpl.
  - rewrite E. destruct (decide (path ∈ undeletable world)); [contradiction|].
    reflexivity.
  - reflexivity.
Qed.

(** Whatever happens, removing one path ends, with a value or an
    exception. *)
Lemma removeIfPresent_ends (path : jsstring) (world : World) :
  (removeIfPresent path world).1 <> Diverge.
Proof.
  unfold removeIfPresent, bind, existsSync, unlinkSync, ret.
  destruct (bool_decide (is_Some (files world !! path))); [|discriminate].
  destruct (files world !! path); [|discriminate].
  destruct (decide (path ∈ undeletable world)); discriminate.
Qed.

Lemma removeFrames_ends (count : nat) :
  forall i world, (removeFrames cwd count i world).1 <> Diverge.
Proof.
  induction count as [|count IH]; intros i world; [discriminate|].
  cbn [removeFrames].
  unfold bind at 1.
  pose proof (removeIfPresent_ends (framePath (tempDir cwd) i) world) as H.
  destruct (removeIfPresent _ world) as [[[]| |] w1]; simpl in *;
    [apply IH | discriminate | contradiction].
Qed.

(** The [finally] block always completes normally: its own failures are
    caught and logged. *)
Lemma cleanup_returns (tensorData : VideoTensorData) (world : World) :
  (cleanup cwd tensorData world).1 = Return tt.
Proof.
  unfold cleanup, try_catch.
  unfold bind at 1.
  pose proof (removeFrames_ends (length (frames tensorData)) 0 world) as H1.
  destruct (removeFrames cwd _ 0%N world) as [[[]| |] w1]; simpl in *;
    [| reflexivity | contradiction].
  pose proof (removeIfPresent_ends (outputPath cwd) w1) as H2.
  destruct (removeIfPresent (outputPath cwd) w1) as [[[]| |] w2]; simpl in *;
    [reflexivity | reflexivity | contradiction].
Qed.

(** When no image path is protected, the loop removes every image and
    creates nothing. *)
Lemma removeFrames_ok (count : nat) :
  forall i world,
    (forall k, k < count ->
       framePath (tempDir cwd) (i + N.of_nat k) ∉ undeletable world) ->
    exists world',
      removeFrames cwd count i world = (Return tt, world')
      /\ undeletable world' = undeletable world
      /\ (forall k, k < count ->
            files world' !! framePath (tempDir cwd) (i + N.of_nat k) = None)
      /\ (forall path, files world !! path = None ->
            files world' !! path = None).
Proof.
  induction count as [|count IH]; intros i world Hfree.
  - exists world. repeat split; [intros; lia | auto].
  - cbn [removeFrames].
    unfold bind at 1. rewrite removeIfPresent_ok
      by (specialize (Hfree 0 ltac:(lia)); rewrite N.add_0_r in Hfree;
          exact Hfree).
    set (w1 := match files world !! framePath (tempDir cwd) i with
               | Some _ => _ | None => _ end).
    assert (undeletable w1 = undeletable world) as Hu
      by (subst w1; destruct (files world !! _); reflexivity).
    assert (files w1 !! framePath (tempDir cwd) i = None) as Hgone.
    { subst w1. destruct (files world !! framePath (tempDir cwd) i) eqn:E;
        [apply lookup_delete_eq | exact E]. }
    assert (forall path, files world !! path = None ->
                         files w1 !! path = None) as Hkeep.
    { intros path Hnone. subst w1.
      destruct (files world !! framePath (tempDir cwd) i); [|exact Hnone].
      simpl. rewrite lookup_delete. case_decide; [reflexivity | exact Hnone]. }
    destruct (IH (i + 1)%N w1) as (w2 & Hrun & Hu2 & Hnone2 & Hkeep2).
    { intros k Hk. rewrite Hu.
      replace (i + 1 + N.of_nat k)%N with (i + N.of_nat (S k))%N by lia.
      apply Hfree. lia. }
    exists w2. repeat split.
    + exact Hrun.
    + congruence.
    + intros [|k] Hk.
      * rewrite N.add_0_r. apply Hkeep2. exact Hgone.
      * replace (i + N.of_nat (S k))%N with (i + 1 + N.of_nat k)%N by lia.
        apply Hnone2. lia.
    + intros path Hnone. apply Hkeep2, Hkeep. exact Hnone.
Qed.

(** When no staged path is protected, the [finally] block leaves no staged
    file. *)
Lemma cleanup_ok (tensorData : VideoTensorData) (world : World) :
  (forall path, staged cwd tensorData path -> path ∉ undeletable world) ->
  forall path, staged cwd tensorData path ->
    files (cleanup cwd tensorData world).2 !! path = None.
Proof.
  intros Hfree.
  destruct (removeFrames_ok (length (frames tensorData)) 0 world)
    as (w1 & Hrun & Hu & Hnone & Hkeep).
  { intros k Hk. apply Hfree. right. exists k. split; [exact Hk|].
    rewrite N.add_0_l. reflexivity. }
  assert (outputPath cwd ∉ undeletable w1) as Hout
    by (rewrite Hu; apply Hfree; left; reflexivity).
  unfold cleanup, try_catch.
  unfold bind at 1.
  rewrite Hrun, (removeIfPresent_ok _ _ Hout).
  intros path [->|(k & Hk & ->)].
  - destruct (files w1 !! outputPath cwd) eqn:E; simpl;
      [apply lookup_delete_eq | exact E].
  - specialize (Hnone k Hk). rewrite N.add_0_l in Hnone.
    destruct (files w1 !! outputPath cwd); simpl; [|exact Hnone].
    rewrite lookup_delete. case_decide; [reflexivity | exact Hnone].
Qed.

End Cleanup.

(** C4, as stated, fails: when unlinking the image of frame 0 is refused, the
    encode succeeds, the failure of the cleanup is logged, and both the image
    and the output container are still there. *)
Lemma C4_counterexample :
  let r := convertTensorToVideo (lit "/app") toyEncoder redPayload
                                protectedWorld in
  r.1 = Return [1; 2; 3]%N
  /\ is_Some (files r.2 !! framePath (tempDir (lit "/app")) 0)
  /\ is_Some (files r.2 !! outputPath (lit "/app"))
  /\ console r.2 =
       [(lit "Cleanup error:",
         FsFailure (lit "EPERM") (framePath (tempDir (lit "/app")) 0))].
Proof.
  vm_compute. repeat split; eexists; reflexivity.
Qed.

(** C4, amended. On every exit path of the encoder the cleanup runs and its
    own failure is caught: the value or the error of the encode is what the
    caller gets.  When unlinking no staged path is refused, no
    staged image of the index range and no output container is left, whether
    the file was there or not.  (A refused unlink ends the cleanup: the files
    not yet removed stay.) *)
Theorem C4_cleanup_keeps_outcome :
  forall cwd ffmpeg (tensorData : VideoTensorData) (world : World),
    let r := convertTensorToVideo cwd ffmpeg tensorData world in
    r.1 = (encode cwd ffmpeg tensorData world).1
    /\ (r.1 <> Diverge ->
        (forall path, staged cwd tensorData path -> path ∉ undeletable world) ->
        forall path, staged cwd tensorData path -> files r.2 !! path = None).
Proof.
  intros cwd ffmpeg tensorData world r. subst r.
  unfold convertTensorToVideo, try_finally.
  pose proof (encode_undeletable cwd ffmpeg tensorData world) as Hu.
  destruct (encode cwd ffmpeg tensorData world) as [completion w1].
  simpl in Hu.
  pose proof (cleanup_returns cwd tensorData w1) as Hret.
  pose proof (cleanup_ok cwd tensorData w1) as Hok.
  destruct (cleanup cwd tensorData w1) as [c2 w2]. simpl in Hret, Hok.
  subst c2. rewrite Hu in Hok.
  destruct completion; simpl; (split; [reflexivity|]); intros Hend;
    try contradiction; exact Hok.
Qed.

Lemma C4_cleanup_keeps_outcome_witness :
  let r := convertTensorToVideo (lit "/app") toyEncoder redPayload emptyWorld in
  r.1 = Return [1; 2; 3]%N
  /\ files r.2 !! framePath (tempDir (lit "/app")) 0 = None
  /\ files r.2 !! outputPath (lit "/app") = None.
Proof.
  pose proof (C4_cleanup_keeps_outcome (lit "/app") toyEncoder redPayload
                emptyWorld) as [_ H].
  assert (forall path, staged (lit "/app") redPayload path ->
            files (convertTensorToVideo (lit "/app") toyEncoder redPayload
                     emptyWorld).2 !! path = None) as Hgone.
  { apply H; [vm_compute; discriminate|].
    intros path _. simpl. apply not_elem_of_empty. }
  split; [vm_compute; reflexivity|]. split.
  - apply Hgone. right. exists 0. split; [simpl; lia | reflexivity].
  - apply Hgone. left. reflexivity.
Defined.

(** ** The per-frame geometry is not read *)





(** ** A failed retrieval *)

(** C6. When a locator is supplied and its retrieval is rejected or answered
    with a response that is not [ok], the resolver throws the error that
    carries the reason (the rejection, or the status text of the response);
    the handler logs it and answers 500, no command is handed to the external
    encoder and no file is created or removed. *)
Theorem C6_failed_fetch_stages_nothing :
  forall cwd ffmpeg fetch F now (body : RequestBody) (url : jsstring)
         (world : World),
    supplied (tensor_url body) = Some url ->
    fetchFailed (fetch url) ->
    (fetchTensorData fetch url world).1 = Throw (sourceFetchError (fetch url))
    /\ let r := POST cwd ffmpeg fetch F now body world in
       r.1 = Return (JsonResponse
                       (lit "Failed to convert tensor data to video") 500)
       /\ execs r.2 = execs world
       /\ files r.2 = files world
       /\ console r.2 =
            console world
            ++ [(lit "Error fetching tensor data:", sourceFetchError (fetch url));
                (lit "Error processing video request:",
                 sourceFetchError (fetch url))].
Proof.
  intros cwd ffmpeg fetch F now body url world Hurl Hfail.
  assert (fetchTensorData fetch url world =
          (Throw (sourceFetchError (fetch url)),
           mkWorld (files world) (unwritable world) (undeletable world)
                   (execs world)
                   (console world
                    ++ [(lit "Error fetching tensor data:",
                         sourceFetchError (fetch url))]))) as Hfetch.
  { unfold fetchTensorData, try_catch.
    destruct (fetch url) as [e|ok statusText json]; simpl in *.
    - reflexivity.
    - subst ok. reflexivity. }
  split; [rewrite Hfetch; reflexivity|].
  assert (POST cwd ffmpeg fetch F now body world =
          (Return (JsonResponse
                     (lit "Failed to convert tensor data to video") 500),
           mkWorld (files world) (unwritable world) (undeletable world)
                   (execs world)
                   ((console world
                     ++ [(lit "Error fetching tensor data:",
                          sourceFetchError (fetch url))])
                    ++ [(lit "Error processing video request:",
                         sourceFetchError (fetch url))]))) as Hpost.
  { unfold POST, try_catch. rewrite Hurl. unfold bind at 1.
    rewrite Hfetch. reflexivity. }
  cbv zeta. rewrite Hpost. simpl. rewrite <- app_assoc.
  repeat split; reflexivity.
Qed.

Lemma C6_failed_fetch_stages_nothing_witness :
  let r := POST (lit "/app") toyEncoder notFound exactOps (fun _ => 0%Z)
                (mkRequestBody (Some (lit "http://host/tensor.json")) None)
                emptyWorld in
  r.1 = Return (JsonResponse (lit "Failed to convert tensor data to video") 500)
  /\ execs r.2 = []
  /\ files r.2 = ∅
  /\ console r.2 =
       [(lit "Error fetching tensor data:",
         Error (lit "Failed to fetch tensor data: Not Found"));
        (lit "Error processing video request:",
         Error (lit "Failed to fetch tensor data: Not Found"))].
Proof.
  apply (C6_failed_fetch_stages_nothing (lit "/app") toyEncoder notFound
           exactOps (fun _ => 0%Z)
           (mkRequestBody (Some (lit "http://host/tensor.json")) None)
           (lit "http://host/tensor.json") emptyWorld);
    reflexivity.
Defined.

(** ** The mock payload *)

Section Mock.

Variable F : FloatOps.
Variable now : nat -> Z.
Variable cameraName : jsstring.

Lemma mock_frames_length :
  length (frames (generateMockTensorData F now cameraName)) = 60.
Proof.
  unfold generateMockTensorData. cbn [frames].
  rewrite length_map, length_seq. reflexivity.
Qed.

Lemma mock_frame_lookup (k : nat) :
  k < 60 ->
  frames (generateMockTensorData F now cameraName) !! k
  = Some (mockFrame F now cameraName k).
Proof.
  intros Hk. unfold generateMockTensorData. cbn [frames].
  change (N.to_nat mock_frames) with 60.
  rewrite list_lookup_fmap, lookup_seq_lt by exact Hk. reflexivity.
Qed.

Lemma mock_timestamps :
  map timestamp (frames (generateMockTensorData F now cameraName))
  = map (fun k => Date_toISOString (frameInstant now k)) (seq 0 60).
Proof.
  unfold generateMockTensorData. cbn [frames].
  change (N.to_nat mock_frames) with 60. rewrite map_map. reflexivity.
Qed.

End Mock.

(** C8, as stated, fails: the clock is read once per frame, and when it
    advances between two frames the timestamps are not evenly spaced.  With
    [steppingClock] the first three timestamps are 0, 33 and 71 ms after the
    epoch. *)
Lemma C8_counterexample :
  (forall k, (steppingClock k <= steppingClock (S k))%Z)
  /\ take 3 (map timestamp
               (frames (generateMockTensorData exactOps steppingClock
                          (lit "Front Camera"))))
     = [lit "1970-01-01T00:00:00.000Z"; lit "1970-01-01T00:00:00.033Z";
        lit "1970-01-01T00:00:00.071Z"]
  /\ ~ (exists d, forall k, S k < 60 ->
          (frameInstant steppingClock (S k) - frameInstant steppingClock k = d)%Z).
Proof.
  split; [|split].
  - intros k. unfold steppingClock.
    destruct (Nat.ltb_spec k 2), (Nat.ltb_spec (S k) 2); lia.
  - rewrite mock_timestamps. vm_compute. reflexivity.
  - intros [d H].
    pose proof (H 0 ltac:(lia)) as H0. pose proof (H 1 ltac:(lia)) as H1.
    vm_compute in H0, H1. congruence.
Qed.

(** C8, amended. For every camera label the mock payload has exactly 60
    frames, the payload and each frame are 320 by 240 with 3 channels, the
    frame at position [k] has index [k], and its timestamp renders the
    instant [now k + 33 * k], where [now k] is the reading of the clock when
    frame [k] is built.  The instants are strictly increasing when the clock
    does not go back, and exactly 33 ms apart when the clock does not advance
    during the synthesis. *)
Theorem C8_mock_structure :
  forall (F : FloatOps) (now : nat -> Z) (cameraName : jsstring),
    let p := generateMockTensorData F now cameraName in
    length (frames p) = 60
    /\ width p = 320%N /\ height p = 240%N /\ channels p = 3%N
    /\ (forall k f, frames p !! k = Some f ->
          frame_width f = 320%N /\ frame_height f = 240%N
          /\ frame_channels f = 3%N
          /\ frame_index f = N.of_nat k
          /\ timestamp f = Date_toISOString (frameInstant now k))
    /\ ((forall k, S k < 60 -> (now k <= now (S k))%Z) ->
        forall i j, i < j < 60 ->
          (frameInstant now i < frameInstant now j)%Z)
    /\ ((forall k, k < 60 -> now k = now 0) ->
        forall k, S k < 60 ->
          (frameInstant now (S k) - frameInstant now k = 33)%Z).
Proof.
  intros F now cameraName p. subst p.
  split; [apply mock_frames_length|]. do 3 (split; [reflexivity|]).
  split; [|split].
  - intros k f Hf.
    assert (k < 60) as Hk
      by (apply lookup_lt_Some in Hf; rewrite mock_frames_length in Hf;
          exact Hf).
    rewrite mock_frame_lookup in Hf by exact Hk. injection Hf as <-.
    repeat split; reflexivity.
  - intros Hclock i j [Hij Hj].
    assert (forall d, i + d < 60 -> (now i <= now (i + d)%nat)%Z) as Hmono.
    { induction d as [|d IH]; intros Hd.
      - rewrite Nat.add_0_r. lia.
      - replace (i + S d) with (S (i + d)) by lia.
        specialize (Hclock (i + d) ltac:(lia)). lia. }
    specialize (Hmono (j - i) ltac:(lia)).
    replace (i + (j - i)) with j in Hmono by lia.
    unfold frameInstant. lia.
  - intros Hclock k Hk. unfold frameInstant.
    rewrite (Hclock (S k)), (Hclock k) by lia. lia.
Qed.

Lemma C8_mock_structure_witness :
  (frameInstant (fun _ => 1793577600000%Z) 0
   < frameInstant (fun _ => 1793577600000%Z) 59)%Z
  /\ (frameInstant (fun _ => 1793577600000%Z) 1
      - frameInstant (fun _ => 1793577600000%Z) 0 = 33)%Z.
Proof.
  destruct (C8_mock_structure exactOps (fun _ => 1793577600000%Z)
              (lit "Front Camera"))
    as (_ & _ & _ & _ & _ & Hinc & Hgap).
  split.
  - apply Hinc; [intros; lia | lia].
  - apply Hgap; [intros; reflexivity | lia].
Defined.

(** C10, as stated, fails: two invocations with the same label at different
    times give payloads with different timestamps. *)
Lemma C10_counterexample :
  generateMockTensorData exactOps (fun _ => 0%Z) (lit "Front Camera")
  <> generateMockTensorData exactOps (fun _ => 1000%Z) (lit "Front Camera").
Proof.
  intros H.
  apply (f_equal (fun p => head (map timestamp (frames p)))) in H.
  rewrite !mock_timestamps in H. vm_compute in H. discriminate.
Qed.

(** C10, amended. The mock payload is a function of the camera label and of
    the readings of the clock: everything but the timestamps (the label, the
    geometry, the frame indices and the samples) is the same for any two
    invocations with the same label, and the whole payload is the same when
    the clock reads the same for each frame. *)
Theorem C10_mock_depends_on_label_and_clock :
  forall (F : FloatOps) (now1 now2 : nat -> Z) (cameraName : jsstring),
    eraseTimestamps (generateMockTensorData F now1 cameraName)
    = eraseTimestamps (generateMockTensorData F now2 cameraName)
    /\ ((forall k, k < 60 -> now1 k = now2 k) ->
        generateMockTensorData F now1 cameraName
        = generateMockTensorData F now2 cameraName).
Proof.
  intros F now1 now2 cameraName. split.
  - unfold eraseTimestamps, generateMockTensorData. cbn [frames camera_name
      width height channels]. rewrite !map_map. reflexivity.
  - intros Hclock. unfold generateMockTensorData. f_equal.
    apply map_ext_in. intros k Hk. apply in_seq in Hk.
    change (N.to_nat mock_frames) with 60 in Hk.
    unfold mockFrame. rewrite (Hclock k) by lia. reflexivity.
Qed.

Lemma C10_mock_depends_on_label_and_clock_witness :
  generateMockTensorData exactOps (fun k => if k <? 60 then 7%Z else 8%Z)
                         (lit "Wrist Camera")
  = generateMockTensorData exactOps (fun _ => 7%Z) (lit "Wrist Camera").
Proof.
  apply (C10_mock_depends_on_label_and_clock exactOps
           (fun k => if k <? 60 then 7%Z else 8%Z) (fun _ => 7%Z)
           (lit "Wrist Camera")).
  intros k Hk. destruct (Nat.ltb_spec k 60); [reflexivity | lia].
Defined.

(** * Further properties of the endpoint *)

(** ** The staged paths *)

Lemma padded_index_inj (a b : N) :
  padStart 6 (lit "0") (toString a) = padStart 6 (lit "0") (toString b) ->
  a = b.
Proof.
  intros H. apply (f_equal digitsValue) in H.
  rewrite !padStart_zero, !digitsValue_zeros in H.
  destruct (toString_spec a) as (_ & Ha & _).
  destruct (toString_spec b) as (_ & Hb & _). congruence.
Qed.

Lemma framePath_inj (dir : jsstring) (i j : N) :
  framePath dir i = framePath dir j -> i = j.
Proof.
  unfold framePath, join, frameName. intros H.
  do 3 apply app_inv_head in H. apply app_inv_tail in H.
  apply padded_index_inj. exact H.
Qed.

Lemma framePath_not_output (cwd : jsstring) (i : N) :
  framePath (tempDir cwd) i <> outputPath cwd.
Proof.
  unfold framePath, tempDir, outputPath, join. rewrite <- !app_assoc.
  intros H. apply app_inv_head in H. vm_compute in H. discriminate.
Qed.

(** X1. The staged paths never collide: two positions of the frame sequence,
    however large, have different image paths, and no image path is the
    path of the output container. *)
Theorem staged_paths_distinct :
  forall (cwd : jsstring) (i j : N),
    (framePath (tempDir cwd) i = framePath (tempDir cwd) j <-> i = j)
    /\ framePath (tempDir cwd) i <> outputPath cwd.
Proof.
  intros cwd i j. split; [split|].
  - apply framePath_inj.
  - intros ->. reflexivity.
  - apply framePath_not_output.
Qed.

(** ** More on the pixel loop *)

(** X2. When the payload's channel count is positive, or the frame has no
    data, the pixel loop ends and the image is the header followed by one
    triple of samples per started group of [channels] values: three samples
    times the number of groups, and the header alone for a frame without
    data. *)
Theorem image_defined_for_positive_stride :
  forall (w h c : N) (f : Frame),
    (0 < c)%N \/ tensor_data f = [] ->
    ppmContent w h c f = Some (ppmHeader w h ++ frameBody c f)
    /\ length (frameBody c f)
       = 3 * pixelCount (N.to_nat c) (length (tensor_data f))
    /\ (tensor_data f = [] -> frameBody c f = []).
Proof.
  intros w h c f Hcase.
  assert (length (frameBody c f)
          = 3 * pixelCount (N.to_nat c) (length (tensor_data f))) as Hlen.
  { unfold frameBody.
    rewrite length_flat_map_triples by apply length_pixelAt.
    rewrite length_seq. reflexivity. }
  assert (tensor_data f = [] -> frameBody c f = []) as Hnil.
  { intros E. unfold frameBody, pixelCount. rewrite E. simpl length.
    destruct (N.to_nat c) as [|n]; [reflexivity|].
    replace (0 + S n - 1) with n by lia.
    rewrite Nat.div_small by lia. reflexivity. }
  split; [|split; assumption].
  destruct (N.eq_dec c 0%N) as [->|Hc].
  - destruct Hcase as [Hpos|E]; [lia|].
    unfold ppmContent. rewrite (Hnil E), E, app_nil_r. reflexivity.
  - apply ppmContent_total. lia.
Qed.

Lemma pixelCount_exact (c n : nat) : 0 < c -> pixelCount c (n * c) = n.
Proof.
  intros Hc.
  destruct (Nat.lt_trichotomy (pixelCount c (n * c)) n) as [H|[H|H]].
  - exfalso. apply (Nat.lt_irrefl (pixelCount c (n * c))).
    apply (pixelCount_lt c (n * c) _ Hc).
    apply Nat.mul_lt_mono_pos_r; assumption.
  - exact H.
  - apply (pixelCount_lt c (n * c) n Hc) in H. lia.
Qed.

Lemma frameImage_exact_length (w h c : N) (f : Frame) :
  (0 < c)%N ->
  length (tensor_data f) = N.to_nat (w * h * c) ->
  length (frameImage w h c f) = length (ppmHeader w h) + 3 * N.to_nat (w * h).
Proof.
  intros Hc Hlen. unfold frameImage.
  rewrite length_app, length_flat_map_triples by apply length_pixelAt.
  rewrite length_seq, Hlen, N2Nat.inj_mul, pixelCount_exact by lia.
  reflexivity.
Qed.



Lemma index_lookup (data : list jsval) (i : nat) :
  index data i = default JUndefined (data !! i).
Proof. reflexivity. Qed.

(** X4. The image of a frame depends on its [tensor_data] only through its
    length and the first three values of every group of [channels] values:
    with four or more channels the values past the third of each group are
    never read. *)
Theorem extra_channels_ignored :
  forall (w h c : N) (f g : Frame),
    length (tensor_data f) = length (tensor_data g) ->
    (forall p k, k < 3 ->
       tensor_data f !! (p * N.to_nat c + k)
       = tensor_data g !! (p * N.to_nat c + k)) ->
    ppmContent w h c f = ppmContent w h c g.
Proof.
  intros w h c f g Hlen Hsame.
  destruct (N.eq_dec c 0%N) as [->|Hc].
  - unfold ppmContent. rewrite <- Hlen.
    destruct (tensor_data f) as [|v data] eqn:E.
    + destruct (tensor_data g); [reflexivity | discriminate].
    + rewrite !pixelLoop_stuck by (rewrite <- ?Hlen; simpl; lia). reflexivity.
  - rewrite !ppmContent_total by lia. rewrite Hlen. do 2 f_equal.
    apply flat_map_ext. intros p. unfold pixelAt.
    apply map_ext_in. intros k Hk. rewrite !index_lookup, Hsame; [reflexivity|].
    simpl in Hk. lia.
Qed.

Lemma extra_channels_ignored_witness :
  ppmContent 1 1 4 (mkFrame 0 [] [JNum (num 9); JNum (num 8); JNum (num 7);
                                JNum (num 255)] 1 1 4)
  = ppmContent 1 1 4 (mkFrame 0 [] [JNum (num 9); JNum (num 8); JNum (num 7);
                                  JNum (num 0)] 1 1 4).
Proof.
  apply (extra_channels_ignored 1 1 4); [reflexivity |].
  intros [|p] k Hk.
  - destruct k as [|[|[|k]]]; [reflexivity | reflexivity | reflexivity | lia].
  - simpl. rewrite !(proj2 (lookup_ge_None _ _)) by (simpl; lia). reflexivity.
Defined.

(** ** The bytes written for an image *)

Lemma utf8_app (a b : jsstring) : utf8 (a ++ b) = utf8 a ++ utf8 b.
Proof. unfold utf8. apply bind_app. Qed.

Lemma toString_ascii (n : N) : Forall (fun u => (u < 128)%N) (toString n).
Proof.
  destruct (toString_spec n) as (Hd & _).
  eapply Forall_impl; [exact Hd|]. unfold isDigit. intros u Hu. lia.
Qed.

Lemma ppmHeader_ascii (w h : N) : Forall (fun u => (u < 128)%N) (ppmHeader w h).
Proof.
  unfold ppmHeader. repeat (apply Forall_app; split);
    try apply toString_ascii;
    vm_compute; repeat constructor.
Qed.

Lemma utf8_length (s : jsstring) :
  Forall (fun u => (u < 2048)%N) s ->
  length (utf8 s) = length s + length (wideUnits s).
Proof.
  unfold utf8, wideUnits. induction 1 as [|u s Hu _ IH]; [reflexivity|].
  cbn [mbind list_bind]. fold (s ≫= utf8_unit).
  rewrite length_app, IH, filter_cons. unfold utf8_unit.
  destruct (N.ltb_spec u 128) as [Hs|Hs].
  - rewrite decide_False by lia. simpl. lia.
  - destruct (N.ltb_spec u 2048); [|lia].
    rewrite decide_True by lia. simpl. lia.
Qed.

Lemma frameBody_units (c : N) (f : Frame) :
  Forall (fun u => (u < 256)%N) (frameBody c f).
Proof.
  unfold frameBody. apply Forall_flat_map, Forall_forall. intros p _.
  unfold pixelAt. apply Forall_forall. intros u Hu.
  apply list_elem_of_fmap in Hu as (k & -> & _).
  pose proof (spec_sample_range (index (tensor_data f) (p * N.to_nat c + k))).
  lia.
Qed.

(** X5. What [writeFileSync] makes of an image: the header is written as it
    is, and each sample takes one byte when it is below 128 and two bytes
    otherwise, so the file is longer than the image by the number of samples
    of 128 or more; it is the image itself when every sample is below 128. *)
Theorem image_bytes :
  forall (w h c : N) (f : Frame),
    utf8 (frameImage w h c f) = ppmHeader w h ++ utf8 (frameBody c f)
    /\ length (utf8 (frameImage w h c f))
       = length (frameImage w h c f) + length (wideUnits (frameBody c f))
    /\ (wideUnits (frameBody c f) = [] ->
        utf8 (frameImage w h c f) = frameImage w h c f).
Proof.
  intros w h c f. fold (frameBody c f) in *.
  change (frameImage w h c f) with (ppmHeader w h ++ frameBody c f).
  pose proof (utf8_ascii _ (ppmHeader_ascii w h)) as Hh.
  split; [rewrite utf8_app, Hh; reflexivity|]. split.
  - rewrite utf8_app, Hh, !length_app, utf8_length; [lia|].
    eapply Forall_impl; [apply frameBody_units|]. simpl. intros; lia.
  - intros Hnone. rewrite utf8_app, Hh. f_equal. apply utf8_ascii.
    apply Forall_forall. intros u Hu.
    destruct (N.lt_ge_cases u 128) as [|Hge]; [assumption|].
    exfalso. assert (u ∈ wideUnits (frameBody c f)) as Hin
      by (apply list_elem_of_filter; split; assumption).
    rewrite Hnone in Hin. inversion Hin.
Qed.

Lemma image_bytes_witness :
  utf8 (frameImage 1 1 3 (mkFrame 0 [] [JNum (num 127); JNum (num 0)] 1 1 3))
  = frameImage 1 1 3 (mkFrame 0 [] [JNum (num 127); JNum (num 0)] 1 1 3).
Proof.
  apply (image_bytes 1 1 3). reflexivity.
Defined.

(** ** Staging, encoding and cleaning *)

Section Encoder.

Variable cwd : jsstring.
Variable ffmpeg :
  jsstring -> gmap jsstring (list N) -> option Err * gmap jsstring (list N).

(** Staging changes nothing but the files. *)
Lemma writeFrames_frame (w h c : N) (fs : list Frame) :
  forall i world,
    let world' := (writeFrames cwd w h c fs i world).2 in
    execs world' = execs world /\ console world' = console world
    /\ unwritable world' = unwritable world
    /\ undeletable world' = undeletable world.
Proof.
  induction fs as [|f fs IH]; intros i world; [repeat split|].
  cbn [writeFrames]. destruct (ppmContent w h c f); [|repeat split].
  unfold bind, writeFileSync.
  destruct (decide (framePath (tempDir cwd) i ∈ unwritable world));
    [repeat split|].
  exact (IH (i + 1)%N (set_files _ world)).
Qed.

Lemma writeFrames_ok (w h c : N) (fs : list Frame) :
  (0 < c)%N ->
  forall i world,
    (forall k, k < length fs ->
       framePath (tempDir cwd) (i + N.of_nat k) ∉ unwritable world) ->
    exists world',
      writeFrames cwd w h c fs i world = (Return tt, world')
      /\ (forall k f, fs !! k = Some f ->
            files world' !! framePath (tempDir cwd) (i + N.of_nat k)
            = Some (utf8 (frameImage w h c f)))
      /\ (forall path,
            (forall k, k < length fs ->
               path <> framePath (tempDir cwd) (i + N.of_nat k)) ->
            files world' !! path = files world !! path).
Proof.
  intros Hc. induction fs as [|f fs IH]; intros i world Hfree.
  - exists world. split; [reflexivity|]. split; [intros k f Hk; discriminate|].
    reflexivity.
  - cbn [writeFrames]. rewrite ppmContent_total by exact Hc.
    fold (frameImage w h c f). unfold bind at 1. unfold writeFileSync at 1.
    rewrite decide_False
      by (specialize (Hfree 0 ltac:(simpl; lia)); rewrite N.add_0_r in Hfree;
          exact Hfree).
    set (w1 := set_files _ world).
    destruct (IH (i + 1)%N w1) as (w2 & Hrun & Himg & Hother).
    { intros k Hk. replace (i + 1 + N.of_nat k)%N with (i + N.of_nat (S k))%N
        by lia. apply Hfree. simpl. lia. }
    exists w2. split; [exact Hrun|]. split.
    + intros [|k] g Hg.
      * simpl in Hg. injection Hg as <-. rewrite N.add_0_r, Hother.
        -- subst w1. simpl. apply lookup_insert_eq.
        -- intros k _ Heq. apply framePath_inj in Heq. lia.
      * replace (i + N.of_nat (S k))%N with (i + 1 + N.of_nat k)%N by lia.
        apply Himg. exact Hg.
    + intros path Hpath. rewrite Hother.
      * subst w1. simpl. apply lookup_insert_ne.
        specialize (Hpath 0 ltac:(simpl; lia)). rewrite N.add_0_r in Hpath.
        congruence.
      * intros k Hk.
        replace (i + 1 + N.of_nat k)%N with (i + N.of_nat (S k))%N by lia.
        apply Hpath. simpl. lia.
Qed.

Lemma writeFrames_refused (w h c : N) (fs : list Frame) :
  (0 < c)%N ->
  forall k i world,
    k < length fs ->
    (forall j, j < k ->
       framePath (tempDir cwd) (i + N.of_nat j) ∉ unwritable world) ->
    framePath (tempDir cwd) (i + N.of_nat k) ∈ unwritable world ->
    (writeFrames cwd w h c fs i world).1
    = Throw (FsFailure (lit "EACCES")
                       (framePath (tempDir cwd) (i + N.of_nat k))).
Proof.
  intros Hc. induction fs as [|f fs IH]; intros k i world Hk Hfree Hbad;
    [simpl in Hk; lia|].
  cbn [writeFrames]. rewrite ppmContent_total by exact Hc.
  unfold bind at 1. unfold writeFileSync at 1.
  destruct k as [|k].
  - rewrite N.add_0_r in *. rewrite decide_True by exact Hbad. reflexivity.
  - rewrite decide_False
      by (specialize (Hfree 0 ltac:(lia)); rewrite N.add_0_r in Hfree;
          exact Hfree).
    replace (i + N.of_nat (S k))%N with (i + 1 + N.of_nat k)%N in * by lia.
    apply IH; [simpl in Hk; lia | | exact Hbad].
    intros j Hj. replace (i + 1 + N.of_nat j)%N with (i + N.of_nat (S j))%N
      by lia. apply Hfree. lia.
Qed.

(** The guarded unlink touches its own path only. *)
Lemma removeIfPresent_frame (path : jsstring) (world : World) :
  execs (removeIfPresent path world).2 = execs world
  /\ (forall q, q <> path ->
        files (removeIfPresent path world).2 !! q = files world !! q).
Proof.
  unfold removeIfPresent, bind, existsSync, unlinkSync, ret.
  destruct (files world !! path) as [bytes|] eqn:E; simpl.
  - rewrite E. destruct (decide (path ∈ undeletable world)); simpl;
      (split; [reflexivity|]); intros q Hq; [reflexivity|].
    apply lookup_delete_ne. congruence.
  - split; reflexivity.
Qed.

Lemma removeFrames_step (count : nat) (i : N) (world : World) :
  removeFrames cwd (S count) i world =
  match removeIfPresent (framePath (tempDir cwd) i) world with
  | (Return _, w1) => removeFrames cwd count (i + 1)%N w1
  | (Throw e, w1) => (Throw e, w1)
  | (Diverge, w1) => (Diverge, w1)
  end.
Proof. reflexivity. Qed.

Lemma removeFrames_frame (count : nat) :
  forall i world,
    execs (removeFrames cwd count i world).2 = execs world
    /\ (forall q,
          (forall k, k < count -> q <> framePath (tempDir cwd) (i + N.of_nat k)) ->
          files (removeFrames cwd count i world).2 !! q = files world !! q).
Proof.
  induction count as [|count IH]; intros i world; [split; reflexivity|].
  rewrite removeFrames_step.
  pose proof (removeIfPresent_frame (framePath (tempDir cwd) i) world)
    as [He Hf].
  assert (forall q,
            (forall k, k < S count ->
               q <> framePath (tempDir cwd) (i + N.of_nat k)) ->
            q <> framePath (tempDir cwd) i
            /\ forall k, k < count ->
                 q <> framePath (tempDir cwd) (i + 1 + N.of_nat k)) as Hsplit.
  { intros q Hq. split.
    - specialize (Hq 0 ltac:(lia)). rewrite N.add_0_r in Hq. exact Hq.
    - intros k Hk.
      replace (i + 1 + N.of_nat k)%N with (i + N.of_nat (S k))%N by lia.
      apply Hq. lia. }
  destruct (removeIfPresent _ world) as [[[]| |] w1]; simpl in He, Hf.
  - destruct (IH (i + 1)%N w1) as [He2 Hf2]. split; [congruence|].
    intros q Hq. destruct (Hsplit q Hq) as [Hq1 Hq2].
    rewrite Hf2 by exact Hq2. apply Hf. exact Hq1.
  - simpl. split; [exact He|]. intros q Hq. apply Hf.
    exact (proj1 (Hsplit q Hq)).
  - simpl. split; [exact He|]. intros q Hq. apply Hf.
    exact (proj1 (Hsplit q Hq)).
Qed.

Lemma cleanup_step (tensorData : VideoTensorData) (world : World) :
  cleanup cwd tensorData world =
  match removeFrames cwd (length (frames tensorData)) 0%N world with
  | (Return _, w1) =>
      match removeIfPresent (outputPath cwd) w1 with
      | (Throw e, w2) => console_log (lit "Cleanup error:") e w2
      | other => other
      end
  | (Throw e, w1) => console_log (lit "Cleanup error:") e w1
  | (Diverge, w1) => (Diverge, w1)
  end.
Proof.
  unfold cleanup, try_catch, bind.
  destruct (removeFrames cwd _ 0%N world) as [[[]| |] w1]; reflexivity.
Qed.

Lemma cleanup_frame (tensorData : VideoTensorData) (world : World) :
  execs (cleanup cwd tensorData world).2 = execs world
  /\ (forall q, ~ staged cwd tensorData q ->
        files (cleanup cwd tensorData world).2 !! q = files world !! q).
Proof.
  rewrite cleanup_step.
  pose proof (removeFrames_frame (length (frames tensorData)) 0 world)
    as [He Hf].
  assert (forall q, ~ staged cwd tensorData q ->
            (forall k, k < length (frames tensorData) ->
               q <> framePath (tempDir cwd) (0 + N.of_nat k))
            /\ q <> outputPath cwd) as Hns.
  { intros q Hq. split.
    - intros k Hk ->. apply Hq. right. exists k. split; [exact Hk|].
      rewrite N.add_0_l. reflexivity.
    - intros ->. apply Hq. left. reflexivity. }
  destruct (removeFrames cwd _ 0%N world) as [[[]| |] w1]; simpl in He, Hf.
  - pose proof (removeIfPresent_frame (outputPath cwd) w1) as [He2 Hf2].
    destruct (removeIfPresent (outputPath cwd) w1) as [[[]| |] w2];
      simpl in He2, Hf2; simpl; (split; [congruence|]); intros q Hq;
      destruct (Hns q Hq) as [Hq1 Hq2]; rewrite Hf2 by exact Hq2;
      apply Hf; exact Hq1.
  - simpl. split; [exact He|]. intros q Hq. apply Hf. apply (Hns q Hq).
  - simpl. split; [exact He|]. intros q Hq. apply Hf. apply (Hns q Hq).
Qed.

Lemma encode_step (tensorData : VideoTensorData) (world : World) :
  encode cwd ffmpeg tensorData world =
  match writeFrames cwd (width tensorData) (height tensorData)
                    (channels tensorData) (frames tensorData) 0%N world with
  | (Return _, w1) =>
      let '(failure, fs) := ffmpeg (ffmpegCommand cwd) (files w1) in
      let w2 := mkWorld fs (unwritable w1) (undeletable w1)
                        (execs w1 ++ [ffmpegCommand cwd]) (console w1) in
      match failure with
      | Some e => (Throw e, w2)
      | None =>
          match fs !! outputPath cwd with
          | Some bytes => (Return bytes, w2)
          | None => (Throw (FsFailure (lit "ENOENT") (outputPath cwd)), w2)
          end
      end
  | (Throw e, w1) => (Throw e, w1)
  | (Diverge, w1) => (Diverge, w1)
  end.
Proof.
  unfold encode, bind, execAsync, readFileSync, ret.
  destruct (writeFrames _ _ _ _ _ _ world) as [[[]| |] w1]; try reflexivity.
  destruct (ffmpeg (ffmpegCommand cwd) (files w1)) as [[e|] fs]; simpl;
    [reflexivity|].
  destruct (fs !! outputPath cwd); reflexivity.
Qed.

Lemma convert_after_encode (tensorData : VideoTensorData) (world : World) :
  (encode cwd ffmpeg tensorData world).1 <> Diverge ->
  convertTensorToVideo cwd ffmpeg tensorData world =
  ((encode cwd ffmpeg tensorData world).1,
   (cleanup cwd tensorData (encode cwd ffmpeg tensorData world).2).2).
Proof.
  intros Hend. unfold convertTensorToVideo, try_finally.
  destruct (encode cwd ffmpeg tensorData world) as [completion w1].
  simpl in *. pose proof (cleanup_returns cwd tensorData w1) as Hret.
  destruct (cleanup cwd tensorData w1) as [c2 w2]. simpl in *. subst c2.
  destruct completion; [reflexivity | reflexivity | contradiction].
Qed.

Lemma convert_diverges (tensorData : VideoTensorData) (world : World) :
  (encode cwd ffmpeg tensorData world).1 = Diverge ->
  convertTensorToVideo cwd ffmpeg tensorData world =
  (Diverge, (encode cwd ffmpeg tensorData world).2).
Proof.
  intros Hd. unfold convertTensorToVideo, try_finally.
  destruct (encode cwd ffmpeg tensorData world) as [completion w1].
  simpl in *. subst completion. reflexivity.
Qed.

(** X6. When the channel count is positive and no image path is refused for
    writing, staging returns normally and leaves, for every position [k] of
    the frame sequence, the UTF-8 bytes of the image of frame [k] at the path
    of position [k] (no later frame overwrites an earlier one); every other
    file, the command log and the console are as before. *)
Theorem staging_writes_every_frame :
  forall (w h c : N) (fs : list Frame) (world : World),
    (0 < c)%N ->
    (forall k, k < length fs ->
       framePath (tempDir cwd) (N.of_nat k) ∉ unwritable world) ->
    exists world',
      writeFrames cwd w h c fs 0 world = (Return tt, world')
      /\ (forall k f, fs !! k = Some f ->
            files world' !! framePath (tempDir cwd) (N.of_nat k)
            = Some (utf8 (frameImage w h c f)))
      /\ (forall path,
            (forall k, k < length fs ->
               path <> framePath (tempDir cwd) (N.of_nat k)) ->
            files world' !! path = files world !! path)
      /\ execs world' = execs world
      /\ console world' = console world.
Proof.
  intros w h c fs world Hc Hfree.
  destruct (writeFrames_ok w h c fs Hc 0%N world) as (w1 & Hrun & Himg & Hother).
  { intros k Hk. rewrite N.add_0_l. apply Hfree. exact Hk. }
  pose proof (writeFrames_frame w h c fs 0%N world) as (He & Hcons & _).
  rewrite Hrun in He, Hcons. simpl in He, Hcons.
  exists w1. split; [exact Hrun|]. split; [|split; [|split; assumption]].
  - intros k f Hk. specialize (Himg k f Hk). rewrite N.add_0_l in Himg.
    exact Himg.
  - intros path Hpath. apply Hother. intros k Hk. rewrite N.add_0_l.
    apply Hpath. exact Hk.
Qed.

(** X7. When the image path of position [k] is the first one refused for
    writing, the encoder fails with the file-system error of that path, and
    the external encoder is not run. *)
Theorem refused_write_stops_before_encoder :
  forall (tensorData : VideoTensorData) (world : World) (k : nat),
    (0 < channels tensorData)%N ->
    k < length (frames tensorData) ->
    (forall j, j < k ->
       framePath (tempDir cwd) (N.of_nat j) ∉ unwritable world) ->
    framePath (tempDir cwd) (N.of_nat k) ∈ unwritable world ->
    let r := convertTensorToVideo cwd ffmpeg tensorData world in
    r.1 = Throw (FsFailure (lit "EACCES")
                           (framePath (tempDir cwd) (N.of_nat k)))
    /\ execs r.2 = execs world.
Proof.
  intros tensorData world k Hc Hk Hfree Hbad r. subst r.
  pose proof (writeFrames_refused (width tensorData) (height tensorData)
                (channels tensorData) (frames tensorData) Hc k 0%N world Hk)
    as Hthrow.
  rewrite N.add_0_l in Hthrow.
  specialize (Hthrow ltac:(intros j Hj; rewrite N.add_0_l; apply Hfree; exact Hj)
                     Hbad).
  pose proof (writeFrames_frame (width tensorData) (height tensorData)
                (channels tensorData) (frames tensorData) 0%N world)
    as (He & _).
  pose proof (encode_step tensorData world) as Henc.
  destruct (writeFrames _ _ _ _ _ _ world) as [c1 w1]. simpl in Hthrow, He.
  subst c1. rewrite convert_after_encode by (rewrite Henc; discriminate).
  rewrite Henc. simpl. split; [reflexivity|].
  destruct (cleanup_frame tensorData w1) as [He2 _]. congruence.
Qed.

(** X8. In every run of the encoder the external encoder is run at most
    once: exactly once, with the fixed command line, when staging returned
    normally, and not at all when staging failed or did not end. *)
Theorem encoder_runs_at_most_once :
  forall (tensorData : VideoTensorData) (world : World),
    let staging :=
      (writeFrames cwd (width tensorData) (height tensorData)
                   (channels tensorData) (frames tensorData) 0%N world).1 in
    let r := convertTensorToVideo cwd ffmpeg tensorData world in
    (staging = Return tt -> execs r.2 = execs world ++ [ffmpegCommand cwd])
    /\ (staging <> Return tt -> execs r.2 = execs world).
Proof.
  intros tensorData world staging r. subst staging r.
  pose proof (writeFrames_frame (width tensorData) (height tensorData)
                (channels tensorData) (frames tensorData) 0%N world)
    as (He & _).
  pose proof (encode_step tensorData world) as Henc.
  destruct (writeFrames _ _ _ _ _ _ world) as [[[]| |] w1]; simpl in He; simpl.
  - split; [intros _ | intros H; contradiction].
    destruct (ffmpeg (ffmpegCommand cwd) (files w1)) as [[e|] fs] eqn:Ef.
    + rewrite convert_after_encode by (rewrite Henc; discriminate).
      rewrite Henc. simpl.
      destruct (cleanup_frame tensorData
                  (mkWorld fs (unwritable w1) (undeletable w1)
                           (execs w1 ++ [ffmpegCommand cwd]) (console w1)))
        as [He2 _].
      rewrite He2. simpl. congruence.
    + destruct (fs !! outputPath cwd) eqn:Eo;
        (rewrite convert_after_encode by (rewrite Henc; discriminate));
        rewrite Henc; simpl;
        destruct (cleanup_frame tensorData
                    (mkWorld fs (unwritable w1) (undeletable w1)
                             (execs w1 ++ [ffmpegCommand cwd]) (console w1)))
          as [He2 _];
        rewrite He2; simpl; congruence.
  - split; [discriminate | intros _].
    rewrite convert_after_encode by (rewrite Henc; discriminate).
    rewrite Henc. simpl.
    destruct (cleanup_frame tensorData w1) as [He2 _]. congruence.
  - split; [discriminate | intros _].
    rewrite convert_diverges by (rewrite Henc; reflexivity).
    rewrite Henc. simpl. exact He.
Qed.

(** X9. When staging returned, the external encoder ended well and left
    an output container, the encoder returns exactly the bytes of that
    container; afterwards every file that is not a staged path is as the
    external encoder left it, and, when no unlink of a staged path is
    refused, the staged images and the container are gone. *)
Theorem success_returns_encoder_output :
  forall (tensorData : VideoTensorData) (world w1 : World)
         (fs : gmap jsstring (list N)) (bytes : list N),
    writeFrames cwd (width tensorData) (height tensorData)
                (channels tensorData) (frames tensorData) 0%N world
      = (Return tt, w1) ->
    ffmpeg (ffmpegCommand cwd) (files w1) = (None, fs) ->
    fs !! outputPath cwd = Some bytes ->
    let r := convertTensorToVideo cwd ffmpeg tensorData world in
    r.1 = Return bytes
    /\ (forall path, ~ staged cwd tensorData path ->
          files r.2 !! path = fs !! path)
    /\ ((forall path, staged cwd tensorData path ->
           path ∉ undeletable world) ->
        forall path, staged cwd tensorData path -> files r.2 !! path = None).
Proof.
  intros tensorData world w1 fs bytes Hstage Hrun Hout r. subst r.
  pose proof (writeFrames_frame (width tensorData) (height tensorData)
                (channels tensorData) (frames tensorData) 0%N world)
    as (_ & _ & _ & Hu).
  rewrite Hstage in Hu. simpl in Hu.
  assert (encode cwd ffmpeg tensorData world =
          (Return bytes,
           mkWorld fs (unwritable w1) (undeletable w1)
                   (execs w1 ++ [ffmpegCommand cwd]) (console w1))) as Henc
    by (rewrite encode_step, Hstage, Hrun, Hout; reflexivity).
  rewrite convert_after_encode by (rewrite Henc; discriminate).
  rewrite Henc. simpl. split; [reflexivity|]. split.
  - intros path Hpath.
    destruct (cleanup_frame tensorData
                (mkWorld fs (unwritable w1) (undeletable w1)
                         (execs w1 ++ [ffmpegCommand cwd]) (console w1)))
      as [_ Hf].
    rewrite Hf by exact Hpath. reflexivity.
  - intros Hfree. apply cleanup_ok. simpl. rewrite Hu. exact Hfree.
Qed.

(** X10. When staging returned and the external encoder fails, the encoder
    fails with the external encoder's own error; when the external encoder
    ends well but leaves no output container, the encoder fails with the
    file-system error of reading the output path. *)
Theorem encoder_failure_propagates :
  forall (tensorData : VideoTensorData) (world w1 : World),
    writeFrames cwd (width tensorData) (height tensorData)
                (channels tensorData) (frames tensorData) 0%N world
      = (Return tt, w1) ->
    let r := convertTensorToVideo cwd ffmpeg tensorData world in
    (forall e fs, ffmpeg (ffmpegCommand cwd) (files w1) = (Some e, fs) ->
       r.1 = Throw e)
    /\ (forall fs, ffmpeg (ffmpegCommand cwd) (files w1) = (None, fs) ->
          fs !! outputPath cwd = None ->
          r.1 = Throw (FsFailure (lit "ENOENT") (outputPath cwd))).
Proof.
  intros tensorData world w1 Hstage r. subst r. split.
  - intros e fs Hrun.
    rewrite convert_after_encode;
      rewrite encode_step, Hstage, Hrun; [reflexivity | discriminate].
  - intros fs Hrun Hout.
    rewrite convert_after_encode;
      rewrite encode_step, Hstage, Hrun, Hout; [reflexivity | discriminate].
Qed.

(** X11. For a payload without frames nothing is staged and the external
    encoder is still run, once, on the files as they were; what it does
    decides the result. *)
Theorem empty_payload_still_encodes :
  forall (tensorData : VideoTensorData) (world : World),
    frames tensorData = [] ->
    let r := convertTensorToVideo cwd ffmpeg tensorData world in
    execs r.2 = execs world ++ [ffmpegCommand cwd]
    /\ r.1 = match ffmpeg (ffmpegCommand cwd) (files world) with
             | (Some e, _) => Throw e
             | (None, fs) =>
                 match fs !! outputPath cwd with
                 | Some bytes => Return bytes
                 | None => Throw (FsFailure (lit "ENOENT") (outputPath cwd))
                 end
             end.
Proof.
  intros tensorData world Hnone r. subst r.
  assert ((encode cwd ffmpeg tensorData world).1 <> Diverge) as Hend.
  { rewrite encode_step, Hnone. simpl.
    destruct (ffmpeg (ffmpegCommand cwd) (files world)) as [[e|] fs];
      [discriminate|].
    destruct (fs !! outputPath cwd); discriminate. }
  rewrite convert_after_encode by exact Hend.
  destruct (cleanup_frame tensorData (encode cwd ffmpeg tensorData world).2)
    as [He _].
  simpl. rewrite He. rewrite encode_step, Hnone. simpl.
  destruct (ffmpeg (ffmpegCommand cwd) (files world)) as [[e|] fs];
    [split; reflexivity|].
  destruct (fs !! outputPath cwd); split; reflexivity.
Qed.

(** X12. The cleanup always completes normally, runs no command, and removes
    nothing but staged paths: every other file is as it was, whether an
    unlink was refused or not. *)
Theorem cleanup_spares_other_files :
  forall (tensorData : VideoTensorData) (world : World),
    let r := cleanup cwd tensorData world in
    r.1 = Return tt
    /\ execs r.2 = execs world
    /\ forall path, ~ staged cwd tensorData path ->
         files r.2 !! path = files world !! path.
Proof.
  intros tensorData world r. subst r.
  split; [apply cleanup_returns|]. apply cleanup_frame.
Qed.

End Encoder.

Lemma staging_writes_every_frame_witness :
  exists world',
    writeFrames (lit "/app") 1 1 3 [redFrame] 0 busyWorld = (Return tt, world')
    /\ files world' !! framePath (tempDir (lit "/app")) 0
       = Some (utf8 (frameImage 1 1 3 redFrame))
    /\ files world' !! lit "/app/package.json" = Some [123; 125]%N.
Proof.
  destruct (staging_writes_every_frame (lit "/app") 1 1 3 [redFrame] busyWorld)
    as (w1 & Hrun & Himg & Hother & _).
  - reflexivity.
  - intros k _. simpl. apply not_elem_of_empty.
  - exists w1. split; [exact Hrun|]. split.
    + apply (Himg 0). reflexivity.
    + rewrite Hother; [reflexivity|].
      intros k _ H. vm_compute in H. discriminate.
Defined.

Lemma refused_write_stops_before_encoder_witness :
  let r := convertTensorToVideo (lit "/app") toyEncoder redPayload lockedWorld in
  r.1 = Throw (FsFailure (lit "EACCES") (framePath (tempDir (lit "/app")) 0))
  /\ execs r.2 = [].
Proof.
  apply (refused_write_stops_before_encoder (lit "/app") toyEncoder redPayload
           lockedWorld 0).
  - reflexivity.
  - simpl. lia.
  - intros j Hj. lia.
  - simpl. apply elem_of_singleton. reflexivity.
Defined.

Lemma encoder_runs_at_most_once_witness :
  execs (convertTensorToVideo (lit "/app") toyEncoder redPayload emptyWorld).2
  = [ffmpegCommand (lit "/app")]
  /\ execs (convertTensorToVideo (lit "/app") toyEncoder redPayload
              lockedWorld).2 = [].
Proof.
  split.
  - apply (encoder_runs_at_most_once (lit "/app") toyEncoder redPayload
             emptyWorld). reflexivity.
  - apply (encoder_runs_at_most_once (lit "/app") toyEncoder redPayload
             lockedWorld). vm_compute. discriminate.
Defined.

Lemma success_returns_encoder_output_witness :
  let r := convertTensorToVideo (lit "/app") toyEncoder redPayload busyWorld in
  r.1 = Return [1; 2; 3]%N
  /\ files r.2 !! lit "/app/package.json" = Some [123; 125]%N
  /\ files r.2 !! outputPath (lit "/app") = None.
Proof.
  destruct (success_returns_encoder_output (lit "/app") toyEncoder redPayload
              busyWorld
              (writeFrames (lit "/app") 1 1 3 [redFrame] 0 busyWorld).2
              (toyEncoder (ffmpegCommand (lit "/app"))
                 (files (writeFrames (lit "/app") 1 1 3 [redFrame] 0
                           busyWorld).2)).2
              [1; 2; 3]%N)
    as (Hret & Hother & Hgone).
  - reflexivity.
  - reflexivity.
  - apply lookup_insert_eq.
  - split; [exact Hret|]. split.
    + rewrite Hother.
      * vm_compute. reflexivity.
      * intros [H|(i & Hi & H)]; [vm_compute in H; discriminate|].
        destruct i as [|i]; [vm_compute in H; discriminate | simpl in Hi; lia].
    + apply Hgone; [|left; reflexivity].
      intros path _. simpl. apply not_elem_of_empty.
Defined.

Lemma encoder_failure_propagates_witness :
  (convertTensorToVideo (lit "/app") failingEncoder redPayload emptyWorld).1
  = Throw (ExecFailure (lit "Command failed: ffmpeg"))
  /\ (convertTensorToVideo (lit "/app") idleEncoder redPayload emptyWorld).1
     = Throw (FsFailure (lit "ENOENT") (outputPath (lit "/app"))).
Proof.
  split.
  - eapply (encoder_failure_propagates (lit "/app") failingEncoder redPayload
              emptyWorld); reflexivity.
  - eapply (encoder_failure_propagates (lit "/app") idleEncoder redPayload
              emptyWorld); [reflexivity | reflexivity |].
    vm_compute. reflexivity.
Defined.

Lemma empty_payload_still_encodes_witness :
  let r := convertTensorToVideo (lit "/app") toyEncoder emptyPayload emptyWorld in
  execs r.2 = [ffmpegCommand (lit "/app")] /\ r.1 = Return [1; 2; 3]%N.
Proof.
  apply (empty_payload_still_encodes (lit "/app") toyEncoder emptyPayload
           emptyWorld).
  reflexivity.
Defined.

Lemma cleanup_spares_other_files_witness :
  files (cleanup (lit "/app") redPayload busyWorld).2 !! lit "/app/package.json"
  = Some [123; 125]%N.
Proof.
  destruct (cleanup_spares_other_files (lit "/app") redPayload busyWorld)
    as (_ & _ & Hother).
  rewrite Hother; [reflexivity|].
  intros [H|(i & Hi & H)]; [vm_compute in H; discriminate|].
  destruct i as [|i]; [vm_compute in H; discriminate | simpl in Hi; lia].
Defined.

(** ** The resolver and the handler *)

(** X13. The resolver returns a payload exactly when the response is [ok]
    and its body parses, and then it returns the parsed payload as it is and
    changes nothing; in every other case (rejection, status not [ok], body
    that does not parse) it throws, after logging what it throws, and leaves
    the files and the command log as they were. *)
Theorem fetch_returns_iff_ok_and_parsed :
  forall (fetch : jsstring -> FetchOutcome) (url : jsstring) (world : World),
    let r := fetchTensorData fetch url world in
    (forall data,
       r.1 = Return data <->
       exists statusText, fetch url = Responded true statusText (inr data))
    /\ (forall data, r.1 = Return data -> r.2 = world)
    /\ (forall e, r.1 = Throw e ->
          console r.2 = console world ++ [(lit "Error fetching tensor data:", e)]
          /\ files r.2 = files world /\ execs r.2 = execs world)
    /\ r.1 <> Diverge.
Proof.
  intros fetch url world r. subst r. unfold fetchTensorData, try_catch.
  destruct (fetch url) as [e|[|] statusText [e|data]]; simpl;
    (split; [intros d; split;
               [intros H; try discriminate H; injection H as <-; eauto
               |intros [st H]; try discriminate H; injection H as _ <-;
                reflexivity]
            |]);
    (split; [intros d H; try discriminate H; reflexivity|]);
    (split; [intros e' H; try discriminate H; injection H as <-;
             repeat split; reflexivity
            |discriminate]).
Qed.

Lemma fetch_returns_iff_ok_and_parsed_witness :
  (fetchTensorData redServer (lit "http://host/t.json") emptyWorld).1
  = Return redPayload
  /\ console (fetchTensorData garbledServer (lit "http://host/t.json")
                emptyWorld).2
     = [(lit "Error fetching tensor data:", Error (lit "Unexpected token <"))].
Proof.
  split.
  - apply (fetch_returns_iff_ok_and_parsed redServer (lit "http://host/t.json")
             emptyWorld).
    exists (lit "OK"). reflexivity.
  - apply (fetch_returns_iff_ok_and_parsed garbledServer
             (lit "http://host/t.json") emptyWorld).
    reflexivity.
Defined.

Lemma fetch_ok_payload (fetch : jsstring -> FetchOutcome)
    (url : jsstring) (world : World) (data : VideoTensorData) :
  (fetchTensorData fetch url world).1 = Return data ->
  exists statusText, fetch url = Responded true statusText (inr data).
Proof.
  unfold fetchTensorData, try_catch.
  destruct (fetch url) as [e|[|] statusText [e|d]]; simpl; intros H;
    try discriminate H.
  injection H as <-. eauto.
Qed.

Lemma fetch_ends (fetch : jsstring -> FetchOutcome)
    (url : jsstring) (world : World) :
  (fetchTensorData fetch url world).1 <> Diverge.
Proof.
  unfold fetchTensorData, try_catch.
  destruct (fetch url) as [e|[|] statusText [e|d]]; discriminate.
Qed.

Section Handler.

Variable cwd : jsstring.
Variable ffmpeg :
  jsstring -> gmap jsstring (list N) -> option Err * gmap jsstring (list N).
Variable fetch : jsstring -> FetchOutcome.
Variable F : FloatOps.
Variable now : nat -> Z.

Abbreviation resolved := (resolvedPayload fetch F now).

Lemma POST_step (body : RequestBody) (world : World) :
  POST cwd ffmpeg fetch F now body world =
  match resolved body world with
  | (Return tensorData, w0) =>
      match convertTensorToVideo cwd ffmpeg tensorData w0 with
      | (Return videoBuffer, w1) =>
          (Return (VideoResponse videoBuffer
                     [(lit "Content-Type", lit "video/mp4");
                      (lit "Content-Length",
                       toString (N.of_nat (length videoBuffer)));
                      (lit "Cache-Control", lit "public, max-age=3600")]),
           w1)
      | (Throw e, w1) =>
          (Return (JsonResponse
                     (lit "Failed to convert tensor data to video") 500),
           (console_log (lit "Error processing video request:") e w1).2)
      | (Diverge, w1) => (Diverge, w1)
      end
  | (Throw e, w0) =>
      (Return (JsonResponse (lit "Failed to convert tensor data to video") 500),
       (console_log (lit "Error processing video request:") e w0).2)
  | (Diverge, w0) => (Diverge, w0)
  end.
Proof.
  unfold POST, try_catch, resolvedPayload. unfold bind at 1.
  destruct (match supplied (tensor_url body) with
            | Some url => fetchTensorData fetch url
            | None => _
            end world) as [[tensorData|e|] w0]; try reflexivity.
  unfold bind.
  destruct (convertTensorToVideo cwd ffmpeg tensorData w0)
    as [[videoBuffer|e|] w1]; reflexivity.
Qed.

(** X14. The handler never throws.  When it answers, the answer is either
    the video, with a [Content-Length] header whose decimal digits denote
    the number of bytes of the body, or the one generic failure: status 500
    and the same message whatever failed, the error itself being the last
    line of the console. *)
Theorem POST_answers :
  forall (body : RequestBody) (world : World),
    let r := POST cwd ffmpeg fetch F now body world in
    match r.1 with
    | Return (VideoResponse bytes headers) =>
        exists contentLength,
          headers = [(lit "Content-Type", lit "video/mp4");
                     (lit "Content-Length", contentLength);
                     (lit "Cache-Control", lit "public, max-age=3600")]
          /\ Forall isDigit contentLength
          /\ digitsValue contentLength = N.of_nat (length bytes)
    | Return (JsonResponse error status) =>
        error = lit "Failed to convert tensor data to video"
        /\ status = 500%N
        /\ exists e,
             last (console r.2)
             = Some (lit "Error processing video request:", e)
    | Throw _ => False
    | Diverge => True
    end.
Proof.
  intros body world r. subst r. rewrite POST_step.
  destruct (resolved body world) as [[tensorData|e|] w0]; simpl.
  - destruct (convertTensorToVideo cwd ffmpeg tensorData w0)
      as [[videoBuffer|e|] w1]; simpl.
    + exists (toString (N.of_nat (length videoBuffer))).
      split; [reflexivity|].
      destruct (toString_spec (N.of_nat (length videoBuffer))) as (Hd & Hv & _).
      split; assumption.
    + repeat split. exists e. apply last_snoc.
    + exact I.
  - repeat split. exists e. apply last_snoc.
  - exact I.
Qed.

Lemma writeFrames_ends (w h c : N) (fs : list Frame) :
  (0 < c)%N ->
  forall i world, (writeFrames cwd w h c fs i world).1 <> Diverge.
Proof.
  intros Hc. induction fs as [|f fs IH]; intros i world; [discriminate|].
  cbn [writeFrames]. rewrite ppmContent_total by exact Hc.
  unfold bind at 1. unfold writeFileSync at 1.
  destruct (decide (framePath (tempDir cwd) i ∈ unwritable world));
    [discriminate | apply IH].
Qed.

(** With a positive channel count the encoder always ends. *)
Lemma convert_ends (tensorData : VideoTensorData) (world : World) :
  (0 < channels tensorData)%N ->
  (convertTensorToVideo cwd ffmpeg tensorData world).1 <> Diverge.
Proof.
  intros Hc.
  assert ((encode cwd ffmpeg tensorData world).1 <> Diverge) as Hend.
  { rewrite encode_step.
    pose proof (writeFrames_ends (width tensorData) (height tensorData)
                  (channels tensorData) (frames tensorData) Hc 0%N world) as Hw.
    destruct (writeFrames _ _ _ _ _ _ world) as [[[]| |] w1]; simpl in *;
      [| discriminate | contradiction].
    destruct (ffmpeg (ffmpegCommand cwd) (files w1)) as [[e|] fs];
      [discriminate|].
    destruct (fs !! outputPath cwd); discriminate. }
  rewrite convert_after_encode by exact Hend. exact Hend.
Qed.

(** X15. Given that the awaited calls complete (the fetch and the external
    encoder are functions here: the source awaits them without a timeout, and
    a call that never completes is not represented), the handler's own loops
    do not keep it from answering when the payload it resolves has a positive
    channel count: it returns a response on the mock path always, and on the
    fetch path for every fetched payload whose channel count is positive. *)
Theorem POST_always_answers :
  forall (body : RequestBody) (world : World),
    (forall url statusText data,
       supplied (tensor_url body) = Some url ->
       fetch url = Responded true statusText (inr data) ->
       (0 < channels data)%N) ->
    exists response, (POST cwd ffmpeg fetch F now body world).1 = Return response.
Proof.
  intros body world Hpos. rewrite POST_step.
  assert (forall tensorData w0,
            resolved body world = (Return tensorData, w0) ->
            (0 < channels tensorData)%N) as Hres.
  { unfold resolvedPayload. intros tensorData w0 H.
    destruct (supplied (tensor_url body)) as [url|] eqn:Eu.
    - pose proof (fetch_ok_payload fetch url world tensorData) as Hok.
      rewrite H in Hok. destruct (Hok eq_refl) as [st Hst].
      exact (Hpos url st tensorData eq_refl Hst).
    - injection H as <- _. reflexivity. }
  assert ((resolved body world).1 <> Diverge) as Hnd.
  { unfold resolvedPayload. destruct (supplied (tensor_url body)) as [url|];
      [apply fetch_ends | discriminate]. }
  destruct (resolved body world) as [[tensorData|e|] w0]; simpl in Hnd;
    [| eauto | contradiction].
  pose proof (convert_ends tensorData w0 (Hres tensorData w0 eq_refl)) as Hce.
  destruct (convertTensorToVideo cwd ffmpeg tensorData w0)
    as [[videoBuffer|e|] w1]; simpl in Hce; [eauto | eauto | contradiction].
Qed.

End Handler.

Lemma POST_always_answers_witness :
  exists response,
    (POST (lit "/app") toyEncoder redServer exactOps (fun _ => 0%Z)
          (mkRequestBody (Some (lit "http://host/t.json")) None)
          emptyWorld).1 = Return response.
Proof.
  apply (POST_always_answers (lit "/app") toyEncoder redServer exactOps
           (fun _ => 0%Z)).
  intros url statusText data _ H. injection H as _ <-. reflexivity.
Defined.

(** ** The samples of the mock payload *)

Lemma array_set_in_range (t : list jsval) (i : nat) (v : jsnum) :
  i < length t -> array_set t i v = <[i := JNum v]> t.
Proof.
  intros Hi. unfold array_set.
  destruct (Nat.ltb_spec i (length t)); [reflexivity | lia].
Qed.

(** Three writes inside the array: its length stays, the three cells hold
    the three values, every other cell is as before. *)
Lemma set3_spec (t : list jsval) (i : nat) (rgb : jsnum * jsnum * jsnum) :
  i + 3 <= length t ->
  length (set3 t i rgb) = length t
  /\ (forall ch, ch < 3 -> set3 t i rgb !! (i + ch) = Some (JNum (channelOf rgb ch)))
  /\ (forall j, j < i \/ i + 3 <= j -> set3 t i rgb !! j = t !! j).
Proof.
  intros Hi. unfold set3.
  rewrite (array_set_in_range t i) by lia.
  rewrite (array_set_in_range _ (i + 1)) by (rewrite length_insert; lia).
  rewrite (array_set_in_range _ (i + 2)) by (rewrite !length_insert; lia).
  split; [rewrite !length_insert; reflexivity|]. split.
  - intros ch Hch. destruct ch as [|[|[|ch]]]; [| | |lia]; cbn [channelOf].
    + rewrite Nat.add_0_r, !list_lookup_insert_ne by lia.
      apply list_lookup_insert_eq. lia.
    + rewrite list_lookup_insert_ne by lia.
      apply list_lookup_insert_eq. rewrite length_insert. lia.
    + apply list_lookup_insert_eq. rewrite !length_insert. lia.
  - intros j Hj. rewrite !list_lookup_insert_ne by lia. reflexivity.
Qed.

Section MockTensor.

Variable F : FloatOps.
Variable cameraName : jsstring.
Variable time : jsnum.

Lemma mockPixel_set3 (t : list jsval) (y x : nat) :
  mockPixel F cameraName time t y x
  = set3 t ((y * 320 + x) * 3) (mockRGB F cameraName time x).
Proof.
  unfold mockPixel, mockRGB, set3.
  destruct (includes cameraName (lit "Front")); reflexivity.
Qed.

(** The inner loop over the first [n] columns of row [y]. *)
Lemma mock_row (y n : nat) :
  forall t,
    n <= 320 -> (y * 320 + n) * 3 <= length t ->
    let t' := foldl (fun tensor x => mockPixel F cameraName time tensor y x)
                    t (seq 0 n) in
    length t' = length t
    /\ (forall x ch, x < n -> ch < 3 ->
          t' !! ((y * 320 + x) * 3 + ch)
          = Some (JNum (channelOf (mockRGB F cameraName time x) ch)))
    /\ (forall j, j < y * 320 * 3 \/ (y * 320 + n) * 3 <= j ->
          t' !! j = t !! j).
Proof.
  induction n as [|n IH]; intros t Hn Hlen t'; subst t'.
  - simpl. split; [reflexivity|]. split; [intros; lia | reflexivity].
  - rewrite seq_S, foldl_app. cbn [foldl]. simpl "+".
    destruct (IH t ltac:(lia) ltac:(lia)) as (Hl & Hset & Hkeep).
    set (t1 := foldl _ t (seq 0 n)) in *.
    rewrite mockPixel_set3.
    destruct (set3_spec t1 ((y * 320 + n) * 3) (mockRGB F cameraName time n)
                ltac:(lia)) as (Hl3 & Hset3 & Hkeep3).
    split; [congruence|]. split.
    + intros x ch Hx Hch.
      destruct (Nat.eq_dec x n) as [->|Hne].
      * apply Hset3. exact Hch.
      * rewrite Hkeep3 by lia. apply Hset; lia.
    + intros j Hj. rewrite Hkeep3 by lia. apply Hkeep. lia.
Qed.

(** The outer loop over the first [m] rows. *)
Lemma mock_rows (m : nat) :
  forall t,
    m <= 240 -> 240 * 320 * 3 <= length t ->
    let t' :=
      foldl (fun tensor y =>
               foldl (fun tensor x => mockPixel F cameraName time tensor y x)
                     tensor (seq 0 320))
            t (seq 0 m) in
    length t' = length t
    /\ (forall y x ch, y < m -> x < 320 -> ch < 3 ->
          t' !! ((y * 320 + x) * 3 + ch)
          = Some (JNum (channelOf (mockRGB F cameraName time x) ch)))
    /\ (forall j, m * 320 * 3 <= j -> t' !! j = t !! j).
Proof.
  induction m as [|m IH]; intros t Hm Hlen t'; subst t'.
  - simpl. split; [reflexivity|]. split; [intros; lia | reflexivity].
  - rewrite (seq_S m 0), foldl_app. cbn [foldl]. simpl "+".
    destruct (IH t ltac:(lia) Hlen) as (Hl & Hset & Hkeep).
    set (t1 := foldl _ t (seq 0 m)) in *.
    destruct (mock_row m 320 t1 ltac:(lia) ltac:(lia)) as (Hlr & Hsetr & Hkeepr).
    split; [congruence|]. split.
    + intros y x ch Hy Hx Hch.
      destruct (Nat.eq_dec y m) as [->|Hne].
      * apply Hsetr; assumption.
      * rewrite Hkeepr by lia. apply Hset; lia.
    + intros j Hj. rewrite Hkeepr by lia. apply Hkeep. lia.
Qed.

End MockTensor.

Lemma mock_tensor_cells (F : FloatOps) (now : nat -> Z)
    (cameraName : jsstring) (k : nat) :
  let f := mockFrame F now cameraName k in
  length (tensor_data f) = N.to_nat (320 * 240 * 3)
  /\ forall y x ch, y < 240 -> x < 320 -> ch < 3 ->
       tensor_data f !! ((y * 320 + x) * 3 + ch)
       = Some (JNum (channelOf
                       (mockRGB F cameraName
                                (fmul F (numN k) (Fin 0.1%Q)) x) ch)).
Proof.
  intros f. subst f. unfold mockFrame. cbn [tensor_data].
  change (N.to_nat mock_width) with 320.
  change (N.to_nat mock_height) with 240.
  change (mock_width * mock_height * mock_channels)%N with (320 * 240 * 3)%N.
  destruct (mock_rows F cameraName (fmul F (numN k) (Fin 0.1%Q)) 240
              (replicate (N.to_nat (320 * 240 * 3)) JUndefined)
              ltac:(lia) ltac:(rewrite length_replicate; lia))
    as (Hl & Hset & _).
  split; [rewrite Hl; apply length_replicate|].
  intros y x ch Hy Hx Hch. apply Hset; assumption.
Qed.

(** X16. Every frame of the mock payload carries exactly
    [width * height * channels] = 320 * 240 * 3 samples, none of them a hole,
    and the sample of a pixel depends on its column only: all rows of a frame
    are equal. *)
Theorem mock_tensor_filled :
  forall (F : FloatOps) (now : nat -> Z) (cameraName : jsstring) (k : nat),
    let f := mockFrame F now cameraName k in
    length (tensor_data f) = N.to_nat (320 * 240 * 3)
    /\ (forall j, j < length (tensor_data f) ->
          exists v, tensor_data f !! j = Some (JNum v))
    /\ (forall y x ch, y < 240 -> x < 320 -> ch < 3 ->
          tensor_data f !! ((y * 320 + x) * 3 + ch)
          = tensor_data f !! (x * 3 + ch)).
Proof.
  intros F now cameraName k f.
  destruct (mock_tensor_cells F now cameraName k) as (Hl & Hcells).
  fold f in Hl, Hcells. split; [exact Hl|]. split.
  - intros j Hj. rewrite Hl in Hj.
    pose proof (Nat.div_mod_eq j 960) as Hq.
    pose proof (Nat.mod_upper_bound j 960 ltac:(lia)) as Hr.
    pose proof (Nat.div_mod_eq (j mod 960) 3) as Hq3.
    pose proof (Nat.mod_upper_bound (j mod 960) 3 ltac:(lia)) as Hr3.
    set (y := j / 960) in *. set (r := j mod 960) in *.
    set (x := r / 3) in *. set (ch := r mod 3) in *.
    clearbody y r x ch.
    replace j with ((y * 320 + x) * 3 + ch) by lia.
    eexists. apply Hcells; lia.
  - intros y x ch Hy Hx Hch.
    rewrite Hcells by assumption.
    replace (x * 3 + ch) with ((0 * 320 + x) * 3 + ch) by lia.
    rewrite Hcells by (assumption || lia). reflexivity.
Qed.

Lemma mock_tensor_filled_witness :
  exists v,
    tensor_data (mockFrame exactOps (fun _ => 0%Z) (lit "Front Camera") 7)
      !! 1000 = Some (JNum v).
Proof.
  destruct (mock_tensor_filled exactOps (fun _ => 0%Z) (lit "Front Camera") 7)
    as (Hl & Hnum & _).
  apply Hnum. rewrite Hl. lia.
Defined.

(** X17. The mock payload is well formed for the encoder: for each of its
    60 frames the image built with the payload's geometry is defined and is a
    complete raster of 320 * 240 pixels, and the samples of the pixel of
    column [x] in any row are the floored and clamped waves of column [x]. *)
Theorem mock_frame_complete_image :
  forall (F : FloatOps) (now : nat -> Z) (cameraName : jsstring) (k : nat),
    k < 60 ->
    let p := generateMockTensorData F now cameraName in
    exists f content,
      frames p !! k = Some f
      /\ ppmContent (width p) (height p) (channels p) f = Some content
      /\ length content
         = length (ppmHeader 320 240) + 3 * N.to_nat (320 * 240)
      /\ forall y x ch, y < 240 -> x < 320 -> ch < 3 ->
           content !! (length (ppmHeader 320 240) + (3 * (y * 320 + x) + ch))
           = Some (Z.to_N (spec_sample
                     (JNum (channelOf
                              (mockRGB F cameraName
                                       (fmul F (numN k) (Fin 0.1%Q)) x) ch)))).
Proof.
  intros F now cameraName k Hk p. subst p.
  destruct (mock_tensor_cells F now cameraName k) as (Hl & Hcells).
  exists (mockFrame F now cameraName k),
         (frameImage 320 240 3 (mockFrame F now cameraName k)).
  split; [apply mock_frame_lookup; exact Hk|].
  assert (ppmContent 320 240 3 (mockFrame F now cameraName k)
          = Some (frameImage 320 240 3 (mockFrame F now cameraName k)))
    as Hcontent by (apply ppmContent_total; reflexivity).
  split; [exact Hcontent|]. split.
  - apply (frameImage_exact_length 320 240 3); [reflexivity | exact Hl].
  - intros y x ch Hy Hx Hch.
    rewrite (ppmContent_lookup 320 240 3 _ _ (y * 320 + x) ch Hcontent).
    + unfold index.
      change (N.to_nat 3) with 3. rewrite Hcells by assumption. reflexivity.
    + change (N.to_nat 3) with 3. rewrite Hl. lia.
    + exact Hch.
Qed.

Lemma mock_frame_complete_image_witness :
  exists f content,
    frames (generateMockTensorData exactOps (fun _ => 0%Z)
              (lit "Wrist Camera")) !! 59 = Some f
    /\ ppmContent 320 240 3 f = Some content
    /\ length content = length (ppmHeader 320 240) + 3 * N.to_nat (320 * 240).
Proof.
  destruct (mock_frame_complete_image exactOps (fun _ => 0%Z)
              (lit "Wrist Camera") 59 ltac:(lia))
    as (f & content & Hf & Hc & Hlen & _).
  exists f, content. split; [exact Hf|]. split; [exact Hc | exact Hlen].
Defined.

(** ** The name of an image, for every index *)

Lemma digitsValue_leading_zero (d : jsstring) :
  Forall isDigit d ->
  (digitsValue (48%N :: d) < 10 ^ N.of_nat (length d))%N.
Proof.
  intros Hd. cbn [digitsValue]. pose proof (digitsValue_bound d Hd). lia.
Qed.

(** X18. For every index, also from the millionth on, the name of the staged
    image is [frame_], a string of decimal digits that denotes the index, and
    [.ppm]; the digits are at least six, and more than six only without a
    leading zero: the zero-padded rendering of minimal width six that the
    pattern [frame_%06d.ppm] of the command line stands for. *)
Theorem frame_name_is_padded_index :
  forall (i : N),
    exists d,
      frameName i = lit "frame_" ++ d ++ lit ".ppm"
      /\ Forall isDigit d
      /\ digitsValue d = i
      /\ 6 <= length d
      /\ (6 < length d -> head d <> Some 48%N).
Proof.
  intros i. exists (padStart 6 (lit "0") (toString i)).
  split; [reflexivity|]. rewrite padStart_zero.
  destruct (toString_spec i) as (Hdig & Hval & Hlen).
  split; [|split; [|split]].
  - apply Forall_app. split; [|assumption].
    apply Forall_replicate. unfold isDigit. lia.
  - rewrite digitsValue_zeros. exact Hval.
  - rewrite length_app, length_replicate. lia.
  - rewrite length_app, length_replicate. intros Hlong.
    replace (6 - length (toString i)) with 0 by lia. simpl.
    destruct (toString i) as [|c d] eqn:E; [simpl in Hlong; lia|].
    simpl. intros Hc. injection Hc as ->.
    apply Forall_cons_1 in Hdig as [_ Hd].
    pose proof (digitsValue_leading_zero d Hd) as Hsmall.
    rewrite Hval in Hsmall.
    specialize (Hlen (length d) ltac:(simpl in Hlong; lia) Hsmall).
    simpl in Hlen. lia.
Qed.

Lemma frame_name_is_padded_index_witness :
  exists d,
    frameName 1234567 = lit "frame_" ++ d ++ lit ".ppm"
    /\ digitsValue d = 1234567%N
    /\ head d <> Some 48%N.
Proof.
  destruct (frame_name_is_padded_index 1234567) as (d & Hname & _ & Hval & _ & Hlead).
  exists d. split; [exact Hname|]. split; [exact Hval|].
  apply Hlead.
  assert (d = toString 1234567) as ->; [|vm_compute; lia].
  change (frameName 1234567)
    with (lit "frame_" ++ toString 1234567 ++ lit ".ppm") in Hname.
  apply app_inv_head, app_inv_tail in Hname. congruence.
Defined.

Lemma staged_paths_distinct_witness :
  framePath (tempDir (lit "/app")) 999999
  <> framePath (tempDir (lit "/app")) 1000000
  /\ framePath (tempDir (lit "/app")) 0 <> outputPath (lit "/app").
Proof.
  destruct (staged_paths_distinct (lit "/app") 999999 1000000) as [[H _] Hout].
  split.
  - intros Heq. apply H in Heq. discriminate.
  - apply (staged_paths_distinct (lit "/app") 0 0).
Defined.

Lemma image_defined_for_positive_stride_witness :
  ppmContent 1 1 3 redFrame = Some (ppmHeader 1 1 ++ frameBody 3 redFrame)
  /\ length (frameBody 3 redFrame) = 3 * 1.
Proof.
  destruct (image_defined_for_positive_stride 1 1 3 redFrame) as (Hc & Hl & _);
    [left; reflexivity|].
  split; [exact Hc | exact Hl].
Defined.

(** * The sample in the staged file, short frames, and the order of frames *)

(** C1 fails on the code: the sample is right in the image string, but the
    string is written as UTF-8.  For the values 200.9, -3 and 127 the samples
    are 200, 0 and 127 and the staged body is the four bytes C3 88 00 7F: the
    byte at the place of the first sample is 195, not 200, and the byte at
    the place of the third sample is 0, not 127. *)
Theorem C1_staged_byte_is_not_the_sample :
  ppmContent 1 1 3 brightFrame = Some (ppmHeader 1 1 ++ [200; 0; 127]%N)
  /\ exists bytes,
       files (writeFrames (lit "/app") 1 1 3 [brightFrame] 0 emptyWorld).2
         !! framePath (tempDir (lit "/app")) 0 = Some bytes
       /\ bytes = ppmHeader 1 1 ++ [195; 136; 0; 127]%N
       /\ bytes !! (length (ppmHeader 1 1) + 0) = Some 195%N
       /\ bytes !! (length (ppmHeader 1 1) + 2) = Some 0%N.
Proof.
  split; [vm_compute; reflexivity|].
  eexists. split; [vm_compute; reflexivity|].
  repeat split; vm_compute; reflexivity.
Qed.

Section StagedFrames.

Variable cwd : jsstring.
Variable ffmpeg :
  jsstring -> gmap jsstring (list N) -> option Err * gmap jsstring (list N).






End StagedFrames.

(** C2, amended. For a frame whose [tensor_data] is shorter than
    [width * height * channels], the pixel loop ends without an error and,
    when no write is refused, the frame is staged.  The staged image is
    written from the header and exactly one pixel per started group of
    [channels] values: never more than [width * height] pixels, and fewer as
    soon as a whole group of values is missing; no trailing pixel is added.
    The sample [ch] of pixel [p] is the clamped value at index
    [channels * p + ch], and 0 when that index is beyond the end of the
    array. *)
Theorem C2_short_frame_is_truncated :
  forall (cwd : jsstring) (w h c : N) (fs : list Frame) (world : World)
         (k : nat) (f : Frame),
    fs !! k = Some f ->
    length (tensor_data f) < N.to_nat (w * h * c) ->
    (forall j, j < length fs ->
       framePath (tempDir cwd) (N.of_nat j) ∉ unwritable world) ->
    let stride := N.to_nat c in
    let pixels := pixelCount stride (length (tensor_data f)) in
    exists world' body,
      writeFrames cwd w h c fs 0 world = (Return tt, world')
      /\ ppmContent w h c f = Some (ppmHeader w h ++ body)
      /\ files world' !! framePath (tempDir cwd) (N.of_nat k)
         = Some (utf8 (ppmHeader w h ++ body))
      /\ length body = 3 * pixels
      /\ pixels <= N.to_nat (w * h)
      /\ (length (tensor_data f) <= (N.to_nat (w * h) - 1) * stride ->
          pixels < N.to_nat (w * h))
      /\ forall p ch, p < pixels -> ch < 3 ->
           body !! (3 * p + ch)
           = Some (Z.to_N (spec_sample
                             (index (tensor_data f) (p * stride + ch))))
           /\ (length (tensor_data f) <= p * stride + ch ->
               body !! (3 * p + ch) = Some 0%N).
Proof.
  intros cwd w h c fs world k f Hk Hshort Hfree stride pixels.
  assert (0 < stride) as Hc.
  { subst stride. destruct c; [|lia]. rewrite N.mul_0_r in Hshort.
    simpl in Hshort. lia. }
  destruct (writeFrames_ok cwd w h c fs ltac:(lia) 0%N world)
    as (w1 & Hrun & Himg & _).
  { intros j Hj. rewrite N.add_0_l. apply Hfree. exact Hj. }
  specialize (Himg k f Hk). rewrite N.add_0_l in Himg.
  exists w1, (frameBody c f).
  split; [exact Hrun|]. split; [apply ppmContent_total; lia|].
  split; [exact Himg|].
  assert (length (frameBody c f) = 3 * pixels) as Hlen.
  { unfold frameBody. rewrite length_flat_map_triples by apply length_pixelAt.
    rewrite length_seq. reflexivity. }
  split; [exact Hlen|].
  assert (N.to_nat (w * h) * stride = N.to_nat (w * h * c)) as Hprod
    by (subst stride; rewrite <- N2Nat.inj_mul; reflexivity).
  rewrite <- Hprod in Hshort. clear Hprod.
  set (wh := N.to_nat (w * h)) in *. clearbody wh.
  assert (0 < wh) as Hwh by (destruct wh; [simpl in Hshort; lia | lia]).
  split; [|split].
  - destruct (Nat.le_gt_cases pixels wh) as [|Hgt]; [assumption|].
    exfalso. apply (pixelCount_lt stride _ _ Hc) in Hgt. lia.
  - intros Hmiss.
    destruct (Nat.lt_ge_cases pixels wh) as [|Hge]; [assumption|].
    exfalso.
    assert (wh - 1 < pixels) as Hlt by lia.
    apply (pixelCount_lt stride _ _ Hc) in Hlt. lia.
  - intros p ch Hp Hch.
    assert (frameBody c f !! (3 * p + ch)
            = Some (Z.to_N (spec_sample
                              (index (tensor_data f) (p * stride + ch)))))
      as Hsample.
    { unfold frameBody.
      rewrite (flat_map_triples _ _ (length_pixelAt _ _) 0 p ch Hp Hch).
      apply pixelAt_lookup. exact Hch. }
    split; [exact Hsample|].
    intros Hbeyond. rewrite Hsample, index_beyond by exact Hbeyond.
    reflexivity.
Qed.

Lemma C2_short_frame_is_truncated_witness :
  exists world' body,
    writeFrames (lit "/app") 2 2 3 [shortFrame] 0 emptyWorld
      = (Return tt, world')
    /\ files world' !! framePath (tempDir (lit "/app")) 0
       = Some (utf8 (ppmHeader 2 2 ++ body))
    /\ length body = 3 * 1
    /\ 1 < N.to_nat (2 * 2).
Proof.
  destruct (C2_short_frame_is_truncated (lit "/app") 2 2 3 [shortFrame]
              emptyWorld 0 shortFrame)
    as (w1 & body & Hrun & _ & Hfile & Hlen & _ & Hfewer & _).
  - reflexivity.
  - simpl. lia.
  - intros j _. simpl. apply not_elem_of_empty.
  - exists w1, body. split; [exact Hrun|]. split; [exact Hfile|].
    split; [exact Hlen|]. apply Hfewer. simpl. lia.
Defined.



